(** * PumpChatClient (src/server/utils/pumpchat.ts): a shallow embedding

    The client is a TypeScript class whose handlers run one at a time on
    the Node event loop.  Its fields, the transport, the timers, the
    emitted events and the arrays it shares with its callers are kept in
    one explicit state record; every method is a function on that state
    in a small exception monad (a JavaScript [throw] is an [inl]
    result, [try]/[catch] is [try_catch]).  The environment (the
    websocket library, the timers, the caller) drives the client through
    the [input] type. *)

From Stdlib Require Import ZArith Ascii String List Bool Lia.
From stdpp Require Import base option list strings gmap.
Import ListNotations.
Local Open Scope string_scope.
Local Open Scope list_scope.
Local Open Scope Z_scope.
Set Warnings "-register-all".

(** ** JavaScript values *)

(** Values that reach the client: what [JSON.parse] builds, plus
    [undefined].  A number is the exact decimal [m * 10^e] of its
    literal; objects keep their members in source order. *)
Inductive value : Type :=
  | VUndef
  | VNull
  | VBool (b : bool)
  | VNum (m e : Z)
  | VStr (s : string)
  | VArr (xs : list value)
  | VObj (kvs : list (string * value)).

Inductive exn : Type :=
  | SyntaxError
  | TypeError.

Module JS.

(** A decimal literal that rounds to the double 0: the mantissa is 0
    or the magnitude is at most 2^-1075 (half the least subnormal,
    the tie going to the even 0). *)
Definition num_is_zero (m e : Z) : bool :=
  (m =? 0) || ((e <? 0) && (Z.abs m * 2 ^ 1075 <=? 10 ^ (- e))).

(** ToBoolean. *)
Definition truthy (v : value) : bool :=
  match v with
  | VUndef | VNull => false
  | VBool b => b
  | VNum m e => negb (num_is_zero m e)
  | VStr s => negb (String.eqb s "")
  | VArr _ | VObj _ => true
  end.

Definition isArray (v : value) : bool :=
  match v with VArr _ => true | _ => false end.

Definition is_string (v : value) : bool :=
  match v with VStr _ => true | _ => false end.

(** Own property of a parsed object: the last member with that key. *)
Fixpoint obj_get (k : string) (kvs : list (string * value)) : value :=
  match kvs with
  | [] => VUndef
  | (k', v) :: rest =>
      match obj_get k rest with
      | VUndef => if String.eqb k k' then v else VUndef
      | later => later
      end
  end.

(** [v.k] for one of the names the client reads ([pingInterval],
    [reason], [messages], [error]): none of them is inherited, so only
    an object can have it; reading a property of [null] or
    [undefined] throws. *)
Definition get_field (v : value) (k : string) : exn + value :=
  match v with
  | VUndef | VNull => inl TypeError
  | VObj kvs => inr (obj_get k kvs)
  | _ => inr VUndef
  end.

(** [v[0]]. *)
Definition get_first (v : value) : exn + value :=
  match v with
  | VUndef | VNull => inl TypeError
  | VArr xs => inr (match xs with x :: _ => x | [] => VUndef end)
  | VObj kvs => inr (obj_get "0" kvs)
  | VStr (String c _) => inr (VStr (String c ""))
  | _ => inr VUndef
  end.

(** [const [a, b] = v]: arrays and strings are iterable, nothing else
    that [JSON.parse] builds is.  (A string yields its first two
    characters.) *)
Definition destructure2 (v : value) : exn + (value * value) :=
  match v with
  | VArr [] => inr (VUndef, VUndef)
  | VArr [a] => inr (a, VUndef)
  | VArr (a :: b :: _) => inr (a, b)
  | VStr "" => inr (VUndef, VUndef)
  | VStr (String a "") => inr (VStr (String a ""), VUndef)
  | VStr (String a (String b _)) => inr (VStr (String a ""), VStr (String b ""))
  | _ => inl TypeError
  end.

Definition is_digit (c : ascii) : bool :=
  let n := Z.of_N (N_of_ascii c) in (48 <=? n) && (n <=? 57).

Definition digit_val (c : ascii) : Z := Z.of_N (N_of_ascii c) - 48.

(** The match of [/^(\d+)/]: the leading run of decimal digits. *)
Fixpoint leading_digits (s : string) : string :=
  match s with
  | String c r => if is_digit c then String c (leading_digits r) else ""
  | "" => ""
  end.

(** [s.substring(n)]. *)
Fixpoint substring_from (n : nat) (s : string) : string :=
  match n, s with
  | O, _ => s
  | S n', String _ r => substring_from n' r
  | S _, "" => ""
  end.

Fixpoint digits_value (acc : Z) (s : string) : Z :=
  match s with
  | String c r => digits_value (10 * acc + digit_val c) r
  | "" => acc
  end.

(** [parseInt] of a string of decimal digits; [None] is NaN. *)
Definition parseInt_digits (s : string) : option Z :=
  match s with
  | "" => None
  | _ => Some (digits_value 0 s)
  end.

Fixpoint Z_digits_fuel (fuel : nat) (n : Z) (acc : string) : string :=
  match fuel with
  | O => acc
  | S f =>
      let acc' := String (ascii_of_N (Z.to_N (48 + n mod 10))) acc in
      if n <? 10 then acc' else Z_digits_fuel f (n / 10) acc'
  end.

(** Template-literal rendering of an integer. *)
Definition Z_to_string (n : Z) : string :=
  if n <? 0
  then String "-" (Z_digits_fuel (S (Z.to_nat (Z.log2 (- n)))) (- n) "")
  else Z_digits_fuel (S (Z.to_nat (Z.log2 n))) n "".

(** [xs.slice(start)] on an array. *)
Definition slice_from {A} (start : Z) (xs : list A) : list A :=
  let len := Z.of_nat (length xs) in
  let k := if start <? 0 then Z.max (len + start) 0 else Z.min start len in
  drop (Z.to_nat k) xs.

Fixpoint string_chars (s : string) : list value :=
  match s with
  | String c r => VStr (String c "") :: string_chars r
  | "" => []
  end.

End JS.

(** ** JSON.parse *)

Module JSON.

Definition is_ws (c : ascii) : bool :=
  let n := N_of_ascii c in
  (N.eqb n 32 || N.eqb n 9 || N.eqb n 10 || N.eqb n 13)%bool.

Fixpoint skip_ws (s : string) : string :=
  match s with
  | String c r => if is_ws c then skip_ws r else s
  | "" => ""
  end.

Definition hex_val (c : ascii) : option Z :=
  let n := Z.of_N (N_of_ascii c) in
  if (48 <=? n) && (n <=? 57) then Some (n - 48)
  else if (65 <=? n) && (n <=? 70) then Some (n - 55)
  else if (97 <=? n) && (n <=? 102) then Some (n - 87)
  else None.

Definition byte (n : Z) : ascii := ascii_of_N (Z.to_N n).

(** The double quote, character 34. *)
Definition dquote : ascii := byte 34.

(** The UTF-8 bytes of a [\uXXXX] code unit. *)
Definition utf8 (n : Z) (rest : string) : string :=
  if n <? 128 then String (byte n) rest
  else if n <? 2048 then
    String (byte (192 + n / 64)) (String (byte (128 + n mod 64)) rest)
  else
    String (byte (224 + n / 4096))
      (String (byte (128 + (n / 64) mod 64))
         (String (byte (128 + n mod 64)) rest)).

Definition simple_escape (c : ascii) : option ascii :=
  if Ascii.eqb c dquote then Some dquote
  else if Ascii.eqb c "\" then Some "\"%char
  else if Ascii.eqb c "/" then Some "/"%char
  else if Ascii.eqb c "b" then Some (byte 8)
  else if Ascii.eqb c "f" then Some (byte 12)
  else if Ascii.eqb c "n" then Some (byte 10)
  else if Ascii.eqb c "r" then Some (byte 13)
  else if Ascii.eqb c "t" then Some (byte 9)
  else None.

(** The characters of a string literal after its opening quote, and
    what follows the closing quote. *)
Fixpoint parse_string (s : string) : option (string * string) :=
  match s with
  | "" => None
  | String c r =>
      if Ascii.eqb c dquote then Some ("", r)
      else if Ascii.eqb c "\" then
        match r with
        | String "u" (String h1 (String h2 (String h3 (String h4 r')))) =>
            match hex_val h1, hex_val h2, hex_val h3, hex_val h4 with
            | Some a, Some b, Some c', Some d =>
                match parse_string r' with
                | Some (str, rest) =>
                    Some (utf8 (((a * 16 + b) * 16 + c') * 16 + d) str, rest)
                | None => None
                end
            | _, _, _, _ => None
            end
        | String e r' =>
            match simple_escape e with
            | Some c' =>
                match parse_string r' with
                | Some (str, rest) => Some (String c' str, rest)
                | None => None
                end
            | None => None
            end
        | "" => None
        end
      else if (N_of_ascii c <? 32)%N then None
      else
        match parse_string r with
        | Some (str, rest) => Some (String c str, rest)
        | None => None
        end
  end.

(** A run of digits: its value, its length and the rest. *)
Fixpoint take_digits (acc : Z) (len : Z) (s : string) : Z * Z * string :=
  match s with
  | String c r =>
      if JS.is_digit c then take_digits (10 * acc + JS.digit_val c) (len + 1) r
      else (acc, len, s)
  | "" => (acc, len, "")
  end.

Definition parse_exponent (s : string) : option (Z * string) :=
  match s with
  | String c r =>
      if Ascii.eqb c "e" || Ascii.eqb c "E" then
        let '(neg, r1) :=
          match r with
          | String "-" r1 => (true, r1)
          | String "+" r1 => (false, r1)
          | _ => (false, r)
          end in
        let '(x, len, r2) := take_digits 0 0 r1 in
        if len =? 0 then None else Some (if neg then - x else x, r2)
      else Some (0, s)
  | "" => Some (0, "")
  end.

Definition parse_fraction (m : Z) (s : string) : option (Z * Z * string) :=
  match s with
  | String "." r =>
      let '(m', len, r') := take_digits m 0 r in
      if len =? 0 then None else Some (m', - len, r')
  | _ => Some (m, 0, s)
  end.

(** A number literal: optional minus, an integer part without a
    leading zero (or 0 alone), an optional fraction and an optional
    exponent, each with at least one digit. *)
Definition parse_number (s : string) : option (value * string) :=
  let '(neg, s1) :=
    match s with String "-" r => (true, r) | _ => (false, s) end in
  let '(i, len, s2) := take_digits 0 0 s1 in
  let leading_zero :=
    match s1 with String "0" _ => 1 <? len | _ => false end in
  if (len =? 0) || leading_zero then None
  else
    match parse_fraction i s2 with
    | None => None
    | Some (m, e1, s3) =>
        match parse_exponent s3 with
        | None => None
        | Some (e2, s4) => Some (VNum (if neg then - m else m) (e1 + e2), s4)
        end
    end.

Definition literal (lit : string) (v : value) (s : string)
  : option (value * string) :=
  if String.prefix lit s
  then Some (v, JS.substring_from (String.length lit) s)
  else None.

Fixpoint parse_value (fuel : nat) (s : string) {struct fuel}
  : option (value * string) :=
  match fuel with
  | O => None
  | S fuel' =>
      match skip_ws s with
      | "" => None
      | String c r as s' =>
          if Ascii.eqb c dquote then
            match parse_string r with
            | Some (str, rest) => Some (VStr str, rest)
            | None => None
            end
          else if Ascii.eqb c "[" then
            match skip_ws r with
            | String "]" rest => Some (VArr [], rest)
            | _ =>
                match parse_elements fuel' r with
                | Some (xs, rest) => Some (VArr xs, rest)
                | None => None
                end
            end
          else if Ascii.eqb c "{" then
            match skip_ws r with
            | String "}" rest => Some (VObj [], rest)
            | _ =>
                match parse_members fuel' r with
                | Some (kvs, rest) => Some (VObj kvs, rest)
                | None => None
                end
            end
          else if Ascii.eqb c "n" then literal "null" VNull s'
          else if Ascii.eqb c "t" then literal "true" (VBool true) s'
          else if Ascii.eqb c "f" then literal "false" (VBool false) s'
          else parse_number s'
      end
  end
with parse_elements (fuel : nat) (s : string) {struct fuel}
  : option (list value * string) :=
  match fuel with
  | O => None
  | S fuel' =>
      match parse_value fuel' s with
      | None => None
      | Some (v, r) =>
          match skip_ws r with
          | String "," r' =>
              match parse_elements fuel' r' with
              | Some (vs, rest) => Some (v :: vs, rest)
              | None => None
              end
          | String "]" rest => Some ([v], rest)
          | _ => None
          end
      end
  end
with parse_members (fuel : nat) (s : string) {struct fuel}
  : option (list (string * value) * string) :=
  match fuel with
  | O => None
  | S fuel' =>
      match skip_ws s with
      | String c r =>
          if negb (Ascii.eqb c dquote) then None
          else
            match parse_string r with
            | None => None
            | Some (k, r1) =>
                match skip_ws r1 with
                | String ":" r2 =>
                    match parse_value fuel' r2 with
                    | None => None
                    | Some (v, r3) =>
                        match skip_ws r3 with
                        | String "," r4 =>
                            match parse_members fuel' r4 with
                            | Some (kvs, rest) => Some ((k, v) :: kvs, rest)
                            | None => None
                            end
                        | String "}" rest => Some ([(k, v)], rest)
                        | _ => None
                        end
                    end
                | _ => None
                end
            end
      | "" => None
      end
  end.

(** [JSON.parse(s)]: [None] is the thrown SyntaxError.  Every nested
    call consumes a character, so twice the length is fuel enough. *)
Definition parse (s : string) : option value :=
  match parse_value (2 * String.length s + 2) s with
  | Some (v, rest) =>
      match skip_ws rest with
      | "" => Some v
      | _ => None
      end
  | None => None
  end.

(** Text written with an apostrophe where the wire has a double
    quote: [dq] puts the double quotes back. *)
Fixpoint dq (s : string) : string :=
  match s with
  | String c r => String (if Ascii.eqb c "'" then dquote else c) (dq r)
  | "" => ""
  end.

End JSON.

(** ** The state of a PumpChatClient and of the world around it *)

Definition loc := nat.

(** A value of the [pendingAcks] map. *)
Record pending : Type := mkPending {
  event : string;
  timestamp : Z
}.

(** What a timer runs when it fires. *)
Inductive timer : Type :=
  | PingTimer (interval : value)   (* setInterval(() => this.send('2'), interval) *)
  | CleanupTimer (period : Z)      (* setInterval(() => this.cleanupStaleAcks(), 10000) *)
  | ReconnectTimer (delay : Z).    (* setTimeout(() => this.connect(), delay) *)

(** The events of the EventEmitter interface.  [MessageHistory] carries
    the buffer object itself, not a copy of it. *)
Inductive emitted_event : Type :=
  | Connected
  | Disconnected (reason : option value)
  | Message (message : value)
  | MessageHistory (buffer : loc)
  | Error (error : string)
  | ServerError (response : value)
  | UserLeft (info : value)
  | TryReconnect
  | MaxReconnectAttemptsReached.

Record state : Type := mkState {
  connection : option nat;  (* the open connection, if any *)
  roomId : string;
  username : string;
  messageHistory : loc;  (* a reference to the buffer object *)
  messageHistoryLimit : Z;
  isConnected : bool;
  pingInterval : option nat;  (* the handle of the keepalive timer *)
  reconnectAttempts : Z;
  maxReconnectAttempts : Z;
  ackId : Z;
  pendingAcks : gmap Z pending;
  heap : list value;  (* the objects the client and its callers refer to *)
  timers : list (nat * timer);  (* the live timers, by handle *)
  next_timer : nat;
  sent : list (nat * string);  (* the sendUTF calls, oldest first *)
  closed : list nat;  (* the connection.close() calls *)
  connect_calls : nat;  (* the connect calls on the websocket library *)
  emitted : list emitted_event;  (* the this.emit calls, oldest first *)
  console : list string;  (* the console.error lines *)
  clock : Z  (* Date.now() *)
}.

Definition set_connection (x : option nat) (st : state) : state :=
  mkState x (roomId st) (username st) (messageHistory st)
    (messageHistoryLimit st) (isConnected st) (pingInterval st)
    (reconnectAttempts st) (maxReconnectAttempts st) (ackId st)
    (pendingAcks st) (heap st) (timers st) (next_timer st) (sent st)
    (closed st) (connect_calls st) (emitted st) (console st) (clock st).

Definition set_messageHistory (x : loc) (st : state) : state :=
  mkState (connection st) (roomId st) (username st) x
    (messageHistoryLimit st) (isConnected st) (pingInterval st)
    (reconnectAttempts st) (maxReconnectAttempts st) (ackId st)
    (pendingAcks st) (heap st) (timers st) (next_timer st) (sent st)
    (closed st) (connect_calls st) (emitted st) (console st) (clock st).

Definition set_isConnected (x : bool) (st : state) : state :=
  mkState (connection st) (roomId st) (username st) (messageHistory st)
    (messageHistoryLimit st) x (pingInterval st) (reconnectAttempts st)
    (maxReconnectAttempts st) (ackId st) (pendingAcks st) (heap st)
    (timers st) (next_timer st) (sent st) (closed st) (connect_calls st)
    (emitted st) (console st) (clock st).

Definition set_pingInterval (x : option nat) (st : state) : state :=
  mkState (connection st) (roomId st) (username st) (messageHistory st)
    (messageHistoryLimit st) (isConnected st) x (reconnectAttempts st)
    (maxReconnectAttempts st) (ackId st) (pendingAcks st) (heap st)
    (timers st) (next_timer st) (sent st) (closed st) (connect_calls st)
    (emitted st) (console st) (clock st).

Definition set_reconnectAttempts (x : Z) (st : state) : state :=
  mkState (connection st) (roomId st) (username st) (messageHistory st)
    (messageHistoryLimit st) (isConnected st) (pingInterval st) x
    (maxReconnectAttempts st) (ackId st) (pendingAcks st) (heap st)
    (timers st) (next_timer st) (sent st) (closed st) (connect_calls st)
    (emitted st) (console st) (clock st).

Definition set_ackId (x : Z) (st : state) : state :=
  mkState (connection st) (roomId st) (username st) (messageHistory st)
    (messageHistoryLimit st) (isConnected st) (pingInterval st)
    (reconnectAttempts st) (maxReconnectAttempts st) x (pendingAcks st)
    (heap st) (timers st) (next_timer st) (sent st) (closed st)
    (connect_calls st) (emitted st) (console st) (clock st).

Definition set_pendingAcks (x : gmap Z pending) (st : state) : state :=
  mkState (connection st) (roomId st) (username st) (messageHistory st)
    (messageHistoryLimit st) (isConnected st) (pingInterval st)
    (reconnectAttempts st) (maxReconnectAttempts st) (ackId st) x (heap st)
    (timers st) (next_timer st) (sent st) (closed st) (connect_calls st)
    (emitted st) (console st) (clock st).

Definition set_heap (x : list value) (st : state) : state :=
  mkState (connection st) (roomId st) (username st) (messageHistory st)
    (messageHistoryLimit st) (isConnected st) (pingInterval st)
    (reconnectAttempts st) (maxReconnectAttempts st) (ackId st)
    (pendingAcks st) x (timers st) (next_timer st) (sent st) (closed st)
    (connect_calls st) (emitted st) (console st) (clock st).

Definition set_timers (x : list (nat * timer)) (st : state) : state :=
  mkState (connection st) (roomId st) (username st) (messageHistory st)
    (messageHistoryLimit st) (isConnected st) (pingInterval st)
    (reconnectAttempts st) (maxReconnectAttempts st) (ackId st)
    (pendingAcks st) (heap st) x (next_timer st) (sent st) (closed st)
    (connect_calls st) (emitted st) (console st) (clock st).

Definition set_next_timer (x : nat) (st : state) : state :=
  mkState (connection st) (roomId st) (username st) (messageHistory st)
    (messageHistoryLimit st) (isConnected st) (pingInterval st)
    (reconnectAttempts st) (maxReconnectAttempts st) (ackId st)
    (pendingAcks st) (heap st) (timers st) x (sent st) (closed st)
    (connect_calls st) (emitted st) (console st) (clock st).

Definition set_sent (x : list (nat * string)) (st : state) : state :=
  mkState (connection st) (roomId st) (username st) (messageHistory st)
    (messageHistoryLimit st) (isConnected st) (pingInterval st)
    (reconnectAttempts st) (maxReconnectAttempts st) (ackId st)
    (pendingAcks st) (heap st) (timers st) (next_timer st) x (closed st)
    (connect_calls st) (emitted st) (console st) (clock st).

Definition set_closed (x : list nat) (st : state) : state :=
  mkState (connection st) (roomId st) (username st) (messageHistory st)
    (messageHistoryLimit st) (isConnected st) (pingInterval st)
    (reconnectAttempts st) (maxReconnectAttempts st) (ackId st)
    (pendingAcks st) (heap st) (timers st) (next_timer st) (sent st) x
    (connect_calls st) (emitted st) (console st) (clock st).

Definition set_connect_calls (x : nat) (st : state) : state :=
  mkState (connection st) (roomId st) (username st) (messageHistory st)
    (messageHistoryLimit st) (isConnected st) (pingInterval st)
    (reconnectAttempts st) (maxReconnectAttempts st) (ackId st)
    (pendingAcks st) (heap st) (timers st) (next_timer st) (sent st)
    (closed st) x (emitted st) (console st) (clock st).

Definition set_emitted (x : list emitted_event) (st : state) : state :=
  mkState (connection st) (roomId st) (username st) (messageHistory st)
    (messageHistoryLimit st) (isConnected st) (pingInterval st)
    (reconnectAttempts st) (maxReconnectAttempts st) (ackId st)
    (pendingAcks st) (heap st) (timers st) (next_timer st) (sent st)
    (closed st) (connect_calls st) x (console st) (clock st).

Definition set_console (x : list string) (st : state) : state :=
  mkState (connection st) (roomId st) (username st) (messageHistory st)
    (messageHistoryLimit st) (isConnected st) (pingInterval st)
    (reconnectAttempts st) (maxReconnectAttempts st) (ackId st)
    (pendingAcks st) (heap st) (timers st) (next_timer st) (sent st)
    (closed st) (connect_calls st) (emitted st) x (clock st).

Definition set_clock (x : Z) (st : state) : state :=
  mkState (connection st) (roomId st) (username st) (messageHistory st)
    (messageHistoryLimit st) (isConnected st) (pingInterval st)
    (reconnectAttempts st) (maxReconnectAttempts st) (ackId st)
    (pendingAcks st) (heap st) (timers st) (next_timer st) (sent st)
    (closed st) (connect_calls st) (emitted st) (console st) x.
(** ** Methods run in an exception monad over the state *)

Definition M (A : Type) : Type := state -> (exn + A) * state.

#[global] Instance M_ret : MRet M := fun A (a : A) st => (inr a, st).

#[global] Instance M_bind : MBind M := fun A B (f : A -> M B) (m : M A) st =>
  match m st with
  | (inr a, st') => f a st'
  | (inl e, st') => (inl e, st')
  end.

Definition get : M state := fun st => (inr st, st).
Definition modify (f : state -> state) : M unit := fun st => (inr tt, f st).
Definition throw {A} (e : exn) : M A := fun st => (inl e, st).

(** [try { body } catch (error) { handler(error) }] *)
Definition try_catch {A} (body : M A) (handler : exn -> M A) : M A :=
  fun st =>
    match body st with
    | (inl e, st') => handler e st'
    | ok => ok
    end.

Definition lift {A} (r : exn + A) : M A :=
  match r with
  | inl e => throw e
  | inr a => mret a
  end.

Definition when (b : bool) (m : M unit) : M unit := if b then m else mret tt.

Definition JSON_parse (text : string) : M value :=
  match JSON.parse text with
  | Some v => mret v
  | None => throw SyntaxError
  end.

Definition Date_now : M Z := st ← get; mret (clock st).

(** [this.emit(...)]: the event is recorded.  Listeners belong to the
    caller; they are taken to be registered (Node's emitter throws on
    an 'error' event nobody listens to) and not to throw. *)
Definition emit (e : emitted_event) : M unit :=
  modify (fun st => set_emitted (emitted st ++ [e]) st).

Definition console_error (line : string) : M unit :=
  modify (fun st => set_console (console st ++ [line]) st).

(** [setInterval] and [setTimeout]: a new handle. *)
Definition set_timer (t : timer) : M nat :=
  st ← get;
  modify (fun st => set_next_timer (S (next_timer st))
                      (set_timers (timers st ++ [(next_timer st, t)]) st));;
  mret (next_timer st).

(** [clearInterval]. *)
Definition clear_timer (id : nat) : M unit :=
  modify (fun st => set_timers (filter (fun p => p.1 ≠ id) (timers st)) st).

(** A new object on the heap. *)
Definition alloc (v : value) : M loc :=
  st ← get;
  modify (set_heap (heap st ++ [v]));;
  mret (length (heap st)).

Definition store (l : loc) (v : value) : M unit :=
  modify (fun st => set_heap (<[l := v]> (heap st)) st).

(** ** The constructor *)

(** [new PumpChatClient({roomId, username, messageHistoryLimit})]: an
    absent or empty name is 'anonymous', an absent or zero limit 100. *)
Definition new_client (room : string) (name : option string)
    (limit : option Z) : state :=
  {| connection := None;
     roomId := room;
     username := match name with
                 | Some n => if String.eqb n "" then "anonymous" else n
                 | None => "anonymous"
                 end;
     messageHistory := 0%nat;
     messageHistoryLimit := match limit with
                            | Some n => if n =? 0 then 100 else n
                            | None => 100
                            end;
     isConnected := false;
     pingInterval := None;
     reconnectAttempts := 0;
     maxReconnectAttempts := 5;
     ackId := 0;
     pendingAcks := ∅;
     heap := [VArr []];
     timers := [];
     next_timer := 0%nat;
     sent := [];
     closed := [];
     connect_calls := 0%nat;
     emitted := [];
     console := [];
     clock := 0 |}.

(** ** Private methods *)

Definition send (data : string) : M unit :=
  st ← get;
  match connection st with
  | Some c =>
      if isConnected st
      then modify (set_sent (sent st ++ [(c, data)]))
      else console_error "Cannot send data: not connected"
  | None => console_error "Cannot send data: not connected"
  end.

Definition stopPing : M unit :=
  st ← get;
  match pingInterval st with
  | Some id => clear_timer id;; modify (set_pingInterval None)
  | None => mret tt
  end.

Definition startPing (interval : value) : M unit :=
  stopPing;;
  id ← set_timer (PingTimer interval);
  modify (set_pingInterval (Some id)).

Definition sendPong : M unit := send "3".

Definition getNextAckId : M Z :=
  st ← get;
  let currentId := ackId st in
  modify (set_ackId ((ackId st + 1) mod 10));;
  mret currentId.

Definition pendingAcks_set (id : Z) (ev : string) : M unit :=
  now ← Date_now;
  modify (fun st => set_pendingAcks (<[id := mkPending ev now]> (pendingAcks st)) st).

Definition connect : M unit :=
  modify (fun st => set_connect_calls (S (connect_calls st)) st).

Definition attemptReconnect : M unit :=
  st ← get;
  if reconnectAttempts st <? maxReconnectAttempts st then
    modify (set_reconnectAttempts (reconnectAttempts st + 1));;
    emit TryReconnect;;
    let delay := Z.min (1000 * 2 ^ (reconnectAttempts st + 1)) 30000 in
    console_error "[INFO] Attempting to reconnect";;
    _ ← set_timer (ReconnectTimer delay);
    mret tt
  else
    emit MaxReconnectAttemptsReached.

Definition requestMessageHistory : M unit :=
  historyAckId ← getNextAckId;
  pendingAcks_set historyAckId "getMessageHistory";;
  st ← get;
  send ("42" +:+ JS.Z_to_string historyAckId
        +:+ JSON.dq "['getMessageHistory',{'roomId':'" +:+ roomId st
        +:+ JSON.dq "','before':null,'limit':"
        +:+ JS.Z_to_string (messageHistoryLimit st) +:+ "}]").

Definition handleNewMessage (message : value) : M unit :=
  st ← get;
  let buf := messageHistory st in
  match heap st !! buf with
  | Some (VArr xs) =>
      (* this.messageHistory.push(message) *)
      let pushed := xs ++ [message] in
      store buf (VArr pushed);;
      (* if (length > limit) this.messageHistory.shift() *)
      when (messageHistoryLimit st <? Z.of_nat (length pushed))
           (store buf (VArr (tail pushed)));;
      emit (Message message)
  | _ => throw TypeError
  end.

(** [this.messageHistory = v; this.emit('messageHistory', this.messageHistory)]:
    the parsed value becomes the buffer and is handed to the listeners. *)
Definition replace_history (v : value) : M unit :=
  l ← alloc v;
  modify (set_messageHistory l);;
  emit (MessageHistory l).

Definition handleConnect (data : string) : M unit :=
  let jsonData := JS.substring_from 1 data in
  connectData ← JSON_parse jsonData;
  interval ← lift (JS.get_field connectData "pingInterval");
  when (JS.truthy interval) (startPing interval);;
  now ← Date_now;
  send ("40" +:+ JSON.dq "{'origin':'https://pump.fun','timestamp':"
        +:+ JS.Z_to_string now +:+ JSON.dq ",'token':null}").

Definition handleConnectedAck : M unit :=
  joinAckId ← getNextAckId;
  pendingAcks_set joinAckId "joinRoom";;
  st ← get;
  send ("42" +:+ JS.Z_to_string joinAckId
        +:+ JSON.dq "['joinRoom',{'roomId':'" +:+ roomId st
        +:+ JSON.dq "','username':'" +:+ username st +:+ JSON.dq "'}]").

Definition default_reason : value := VStr "Server initiated disconnect".

Definition handleDisconnect (data : string) : M unit :=
  reason ← try_catch
    (let disconnectData := JS.substring_from 2 data in
     if String.eqb disconnectData "" then mret default_reason
     else
       parsed ← JSON_parse disconnectData;
       if JS.truthy parsed && JS.is_string parsed then mret parsed
       else if JS.truthy parsed then
         r ← lift (JS.get_field parsed "reason");
         mret (if JS.truthy r then r else default_reason)
       else mret default_reason)
    (fun _ => mret default_reason);
  modify (set_isConnected false);;
  modify (set_connection None);;
  stopPing;;
  emit (Disconnected (Some reason));;
  attemptReconnect.

Definition handleEvent (data : string) : M unit :=
  try_catch
    (eventData ← JSON_parse (JS.substring_from 2 data);
     '(eventName, payload) ← lift (JS.destructure2 eventData);
     match eventName with
     | VStr name =>
         if String.eqb name "setCookie" then requestMessageHistory
         else if String.eqb name "newMessage" then handleNewMessage payload
         else if String.eqb name "userLeft" then emit (UserLeft payload)
         else mret tt
     | _ => mret tt
     end)
    (fun _ => console_error "Error parsing event:").

Definition handleEventWithAck (data : string) : M unit :=
  try_catch
    (ackData ← JSON_parse (JS.substring_from 2 data);
     eventData ← lift (JS.get_first ackData);
     messages ← (if JS.truthy eventData
                 then lift (JS.get_field eventData "messages")
                 else mret eventData);
     if JS.truthy messages then replace_history messages
     else if JS.isArray eventData then replace_history eventData
     else
       match ackData with
       | VArr (first :: _) => replace_history first
       | _ => mret tt
       end)
    (fun _ => console_error "Error parsing acknowledgment:").

Definition handleNumberedAck (data : string) : M unit :=
  try_catch
    (let messageType := JS.leading_digits data in
     if String.eqb messageType "" then mret tt
     else
       let ackId := JS.parseInt_digits (JS.substring_from 2 messageType) in
       st ← get;
       let pendingAck := id ← ackId; pendingAcks st !! id in
       match ackId, pendingAck with
       | Some id, Some _ => modify (set_pendingAcks (delete id (pendingAcks st)))
       | _, _ => mret tt
       end;;
       ackData ← JSON_parse (JS.substring_from 3 data);
       match pendingAck with
       | Some p =>
           if String.eqb (event p) "joinRoom" then requestMessageHistory
           else if String.eqb (event p) "getMessageHistory" then
             messages ← lift (JS.get_first ackData);
             when (JS.isArray messages) (replace_history messages)
           else if String.eqb (event p) "sendMessage" then
             first ← lift (JS.get_first ackData);
             err ← (if JS.truthy first
                    then lift (JS.get_field first "error")
                    else mret first);
             when (JS.truthy err)
                  (console_error "Server error:";; emit (ServerError first))
           else mret tt
       | None => mret tt
       end)
    (fun _ => console_error "Error parsing numbered acknowledgment:").

Definition numbered_acks : list string :=
  ["430"; "431"; "432"; "433"; "434"; "435"; "436"; "437"; "438"; "439"].

Definition handleMessage (data : string) : M unit :=
  let messageType := JS.leading_digits data in
  if String.eqb messageType "0" then handleConnect data
  else if String.eqb messageType "40" then handleConnectedAck
  else if String.eqb messageType "41" then handleDisconnect data
  else if String.eqb messageType "42" then handleEvent data
  else if String.eqb messageType "43" then handleEventWithAck data
  else if existsb (String.eqb messageType) numbered_acks
       then handleNumberedAck data
  else if String.eqb messageType "2" then sendPong
  else if String.eqb messageType "3" then mret tt
  else mret tt.

Definition ack_timeout : Z := 30000.

Definition cleanupStaleAcks : M unit :=
  now ← Date_now;
  let timeout := ack_timeout in
  modify (fun st =>
    set_pendingAcks
      (foldr (fun '(id, ack) acks =>
                if timeout <? now - timestamp ack then delete id acks else acks)
             (pendingAcks st) (map_to_list (pendingAcks st)))
      st).

(** ** Handlers of the websocket library's events *)

(** [this.client.on('connect', ...)] *)
Definition onConnect (conn : nat) : M unit :=
  modify (set_connection (Some conn));;
  modify (set_isConnected true);;
  modify (set_reconnectAttempts 0);;
  console_error "[INIT] WebSocket Client Connected";;
  emit Connected;;
  (* setupConnectionHandlers: the three listeners and the cleanup timer *)
  _ ← set_timer (CleanupTimer 10000);
  (* initializeConnection: empty *)
  mret tt.

(** [this.client.on('connectFailed', ...)] *)
Definition onConnectFailed (error : string) : M unit :=
  console_error "Connection Failed:";;
  emit (Error error);;
  attemptReconnect.

(** [connection.on('error', ...)] *)
Definition onError (error : string) : M unit :=
  console_error "Connection Error:";;
  emit (Error error).

(** [connection.on('close', ...)] *)
Definition onClose : M unit :=
  console_error "[INFO] WebSocket Connection Closed";;
  modify (set_isConnected false);;
  modify (set_connection None);;
  emit (Disconnected None);;
  stopPing;;
  attemptReconnect.

(** [connection.on('message', ...)] for a utf8 message. *)
Definition onMessage (utf8Data : string) : M unit :=
  if String.eqb utf8Data "" then mret tt else handleMessage utf8Data.

(** A timer fires: an interval stays, a timeout is spent. *)
Definition onTimer (id : nat) : M unit :=
  st ← get;
  match list_find (fun p => p.1 = id) (timers st) with
  | Some (_, (_, PingTimer _)) => send "2"
  | Some (_, (_, CleanupTimer _)) => cleanupStaleAcks
  | Some (_, (_, ReconnectTimer _)) => clear_timer id;; connect
  | None => mret tt
  end.

(** ** Public methods *)

Definition disconnect : M unit :=
  stopPing;;
  st ← get;
  match connection st with
  | Some c => modify (set_closed (closed st ++ [c]))
  | None => mret tt
  end.

(** [this.messageHistory.slice(-limit)]: a new array (of a string
    buffer, a string); anything else has no [slice]. *)
Definition slice_last (limit : Z) (buffer : option value) : M loc :=
  match buffer with
  | Some (VArr xs) => alloc (VArr (JS.slice_from (- limit) xs))
  | Some (VStr s) =>
      alloc (VStr (string_of_list_ascii
                     (JS.slice_from (- limit) (list_ascii_of_string s))))
  | _ => throw TypeError
  end.

(** [[...this.messageHistory]]: a new array of the elements of an
    iterable buffer. *)
Definition spread (buffer : option value) : M loc :=
  match buffer with
  | Some (VArr xs) => alloc (VArr xs)
  | Some (VStr s) => alloc (VArr (JS.string_chars s))
  | _ => throw TypeError
  end.

(** [getMessages(limit?)]: [if (limit)] takes a present, non-zero
    limit. *)
Definition getMessages (limit : option Z) : M loc :=
  st ← get;
  let buffer := heap st !! messageHistory st in
  match limit with
  | Some n => if n =? 0 then spread buffer else slice_last n buffer
  | None => spread buffer
  end.

Definition sendMessage (message : string) : M unit :=
  st ← get;
  if isConnected st then
    sendAckId ← getNextAckId;
    pendingAcks_set sendAckId "sendMessage";;
    send ("42" +:+ JS.Z_to_string sendAckId
          +:+ JSON.dq "['sendMessage',{'roomId':'" +:+ roomId st
          +:+ JSON.dq "','message':'" +:+ message
          +:+ JSON.dq "','username':'" +:+ username st +:+ JSON.dq "'}]")
  else console_error "Cannot send message: not connected".

Definition isActive (st : state) : bool := isConnected st.

(** ** The event loop *)

(** What the environment can do to the client. *)
Inductive input : Type :=
  | CallConnect
  | CallDisconnect
  | CallSendMessage (text : string)
  | CallGetMessages (limit : option Z)
  | TransportOpen (conn : nat)
  | TransportFailed (error : string)
  | TransportError (error : string)
  | TransportClose
  | Frame (utf8Data : string)
  | TimerFires (id : nat).

Definition dispatch (i : input) : M unit :=
  match i with
  | CallConnect => connect
  | CallDisconnect => disconnect
  | CallSendMessage text => sendMessage text
  | CallGetMessages limit => _ ← getMessages limit; mret tt
  | TransportOpen conn => onConnect conn
  | TransportFailed error => onConnectFailed error
  | TransportError error => onError error
  | TransportClose => onClose
  | Frame data => onMessage data
  | TimerFires id => onTimer id
  end.

(** One turn of the event loop at wall-clock time [now]. *)
Definition step (now : Z) (i : input) (st : state) : (exn + unit) * state :=
  dispatch i (set_clock now st).

(** A run: the states after each turn, until a turn throws.  An error
    that leaves a handler is uncaught and ends the run. *)
Fixpoint run (turns : list (Z * input)) (st : state)
  : list state * option exn :=
  match turns with
  | [] => ([], None)
  | (now, i) :: rest =>
      match step now i st with
      | (inr _, st') =>
          let '(trace, err) := run rest st' in (st' :: trace, err)
      | (inl e, st') => ([st'], Some e)
      end
  end.

Definition final (turns : list (Z * input)) (st : state) : state :=
  List.last (run turns st).1 st.

(** ** Observations used by the statements *)

(** The delays of the reconnect timeouts that are pending. *)
Definition reconnect_delays (st : state) : list Z :=
  omap (fun p => match p.2 with ReconnectTimer d => Some d | _ => None end)
       (timers st).

Definition is_give_up (e : emitted_event) : bool :=
  match e with MaxReconnectAttemptsReached => true | _ => false end.

Definition is_history_ready (e : emitted_event) : bool :=
  match e with MessageHistory _ => true | _ => false end.

(** How often [isActive()] turns from false to true along a trace. *)
Fixpoint activations (before : bool) (trace : list bool) : nat :=
  match trace with
  | [] => 0%nat
  | b :: rest =>
      ((if negb before && b then 1 else 0) + activations b rest)%nat
  end.

(** The array behind a reference, if it is one. *)
Definition array_at (st : state) (l : loc) : option (list value) :=
  match heap st !! l with
  | Some (VArr xs) => Some xs
  | _ => None
  end.

(** The live buffer as an array. *)
Definition buffer (st : state) : option (list value) :=
  array_at st (messageHistory st).

(** [n] consecutive transport failures, one per second. *)
Definition failures (n : nat) : list (Z * input) :=
  map (fun i => (1000 * Z.of_nat i, TransportFailed "ECONNREFUSED")) (seq 1 n).

(** An object other than the live buffer: what the client must leave
    alone. *)
Definition detached (l : loc) (v : value) (st : state) : Prop :=
  heap st !! l = Some v ∧ messageHistory st ≠ l.

(** A method that leaves every detached object as it is. *)
Definition keeps {A} (m : M A) : Prop :=
  ∀ l v st, detached l v st → detached l v (m st).2.

(** ** Scenarios *)

(** A chat message as the server sends it, with identifier [id]. *)
Definition message_json (id : string) : string :=
  JSON.dq "{'id':'" +:+ id
  +:+ JSON.dq "','roomId':'room','username':'alice','userAddress':'0xA1','message':'gm','profile_image':'','timestamp':'2025-09-01T00:00:00.000Z','messageType':'REGULAR','expiresAt':1756684800}".

(** The caller connects, the transport opens and the server sends its
    connect-info frame. *)
Definition opening (socket : nat) : list (Z * input) :=
  [(0, CallConnect);
   (10, TransportOpen socket);
   (20, Frame (JSON.dq "0{'pingInterval':1000}"))].

(** The handshake of the specification's example up to the join
    acknowledgment: the client has then asked for the history under
    correlation id 1. *)
Definition joining (socket : nat) : list (Z * input) :=
  opening socket ++
  [(30, Frame "40");
   (40, Frame (JSON.dq "430[{'error':null}]"))].

(** Feeding new-message events to the client, one after the other. *)
Definition receive (ms : list value) (st : state) : state :=
  foldl (fun st m => (handleNewMessage m st).2) st ms.

(** The text of a frame after its numeric prefix. *)
Definition payload (data : string) : string :=
  JS.substring_from (String.length (JS.leading_digits data)) data.

(** A handler's normal return after one line on the error console. *)
Definition logged (line : string) (st : state) : (exn + unit) * state :=
  (inr tt, set_console (console st ++ [line]) st).

(** The value [v] has become the buffer, as a new object, and has been
    handed to the listeners of the history event. *)
Definition history_replaced (st st' : state) (v : value) : Prop :=
  messageHistory st' = length (heap st)
  ∧ heap st' = heap st ++ [v]
  ∧ emitted st' = emitted st ++ [MessageHistory (length (heap st))].

(** The buffer is what it was and no event has been emitted. *)
Definition history_untouched (st st' : state) : Prop :=
  messageHistory st' = messageHistory st
  ∧ heap st' = heap st
  ∧ emitted st' = emitted st.

(** ** Invariants of the event loop *)

(** The method [m] keeps the invariant [I], also when it throws, and
    returns only values that satisfy [Q]. *)
Definition maintains (I : state → Prop) {A} (m : M A) (Q : A → Prop) : Prop :=
  ∀ st, I st → I (m st).2 ∧ ∀ a, (m st).1 = inr a → Q a.

(** The correlation counter and every pending key are ids 0..9. *)
Definition ack_ids_in_range (st : state) : Prop :=
  0 ≤ ackId st ≤ 9
  ∧ ∀ id p, pendingAcks st !! id = Some p → 0 ≤ id ≤ 9.

(** The attempt counter is within the budget [b]. *)
Definition attempts_within (b : Z) (st : state) : Prop :=
  maxReconnectAttempts st = b ∧ 0 ≤ reconnectAttempts st ≤ b.

(** The client is not connected and has written the frames [s]. *)
Definition offline_with (s : list (nat * string)) (st : state) : Prop :=
  isConnected st = false ∧ sent st = s.

Definition is_ping (t : timer) : bool :=
  match t with PingTimer _ => true | _ => false end.

(** Timer handles are distinct and older than the next one; the live
    keepalive timers are exactly what [pingInterval] refers to. *)
Definition timers_sound (st : state) : Prop :=
  NoDup (timers st).*1
  ∧ (∀ id t, (id, t) ∈ timers st → (id < next_timer st)%nat)
  ∧ (∀ id t, (id, t) ∈ timers st → is_ping t = true →
             pingInterval st = Some id)
  ∧ (∀ id t, pingInterval st = Some id → (id, t) ∈ timers st →
             is_ping t = true)
  ∧ (∀ id, pingInterval st = Some id → (id < next_timer st)%nat).

(** The keepalive timers that are live. *)
Definition ping_timers (st : state) : list (nat * timer) :=
  filter (fun p => is_ping p.2 = true) (timers st).

Definition is_cleanup (t : timer) : bool :=
  match t with CleanupTimer _ => true | _ => false end.

(** The sweep timers that are live. *)
Definition cleanup_timers (st : state) : list (nat * timer) :=
  filter (fun p => is_cleanup p.2 = true) (timers st).

(** The timers are sound and [c] sweep timers are live. *)
Definition sweeps_live (c : nat) (st : state) : Prop :=
  timers_sound st ∧ length (cleanup_timers st) = c.

(** [n] consecutive allocations of a correlation id: the ids, in
    order, and the state after them. *)
Fixpoint allocate (n : nat) (st : state) : list Z * state :=
  match n with
  | O => ([], st)
  | S n' =>
      match getNextAckId st with
      | (inr id, st') =>
          let '(ids, st'') := allocate n' st' in (id :: ids, st'')
      | (inl _, st') => ([], st')
      end
  end.

(** The frame of a correlated request. *)
Definition sendMessage_frame (st : state) (message : string) : string :=
  "42" +:+ JS.Z_to_string (ackId st)
  +:+ JSON.dq "['sendMessage',{'roomId':'" +:+ roomId st
  +:+ JSON.dq "','message':'" +:+ message
  +:+ JSON.dq "','username':'" +:+ username st +:+ JSON.dq "'}]".

Definition getMessageHistory_frame (st : state) : string :=
  "42" +:+ JS.Z_to_string (ackId st)
  +:+ JSON.dq "['getMessageHistory',{'roomId':'" +:+ roomId st
  +:+ JSON.dq "','before':null,'limit':"
  +:+ JS.Z_to_string (messageHistoryLimit st) +:+ "}]".

(** The table after the sweep at the time of the clock. *)
Definition swept (now : Z) (st : state) : gmap Z pending :=
  pendingAcks (cleanupStaleAcks (set_clock now st)).2.

(** [first.error], [first.messages], [first.reason] of a value that is
    not null or undefined. *)
Definition member (k : string) (v : value) : value :=
  match v with
  | VObj kvs => JS.obj_get k kvs
  | _ => VUndef
  end.

(** The state in which the history has just been asked for. *)
Definition history_requested (st : state) : state :=
  (send (getMessageHistory_frame st)
     (set_pendingAcks
        (<[ackId st := mkPending "getMessageHistory" (clock st)]>
           (pendingAcks st))
        (set_ackId ((ackId st + 1) mod 10) st))).2.

(** The reason a 41 frame gives for the disconnect. *)
Definition disconnect_reason (parsed : option value) : value :=
  match parsed with
  | Some (VStr s) => if String.eqb s "" then default_reason else VStr s
  | Some v => if JS.truthy (member "reason" v) then member "reason" v
              else default_reason
  | None => default_reason
  end.

(** The prefixes that [handleMessage] has a case for. *)
Definition recognized_prefixes : list string :=
  ["0"; "40"; "41"; "42"; "43"] ++ numbered_acks ++ ["2"; "3"].

(** The state after a disconnect announced with [reason]: the flag
    and the connection are cleared, the keepalive timer is stopped and
    the event is emitted; the reconnect policy runs from there. *)
Definition disconnected_with (reason : value) (st : state) : state :=
  let st1 := (stopPing (set_connection None (set_isConnected false st))).2 in
  set_emitted (emitted st1 ++ [Disconnected (Some reason)]) st1.

(** The handshake frame the client answers a connect-info frame with. *)
Definition handshake_frame (now : Z) : string :=
  "40" +:+ JSON.dq "{'origin':'https://pump.fun','timestamp':"
  +:+ JS.Z_to_string now +:+ JSON.dq ",'token':null}".

(** ** The queue between the client and the scheduler
    (src/unnamed/part_003, the module [pumpchat-queue]) *)

(** An entry handed to the scheduler. *)
Record PumpMessage : Type := mkPumpMessage {
  sender : value;
  text : value
}.

(** Whether the conversion of a value to a string, as a template
    literal does it, throws: a parsed object converts through
    [Object.prototype.toString] unless a member of its own hides it
    (a member is never callable), an array through the conversion of
    its elements other than null and undefined. *)
Fixpoint toString_throws (v : value) : bool :=
  match v with
  | VObj kvs => existsb (fun kv => String.eqb kv.1 "toString") kvs
  | VArr xs =>
      (fix any (l : list value) : bool :=
         match l with
         | [] => false
         | VNull :: r | VUndef :: r => any r
         | x :: r => toString_throws x || any r
         end) xs
  | _ => false
  end.

(** The listener of the client's [message] event: the message is
    appended to the module's [messages], then one line is printed that
    reads the message's [username] and [message]. *)
Definition on_message (message : value) (messages : list value)
  : (exn + unit) * list value :=
  let messages' := messages ++ [message] in
  match JS.get_field message "username" with
  | inl e => (inl e, messages')
  | inr name =>
      if toString_throws name then (inl TypeError, messages')
      else
        match JS.get_field message "message" with
        | inl e => (inl e, messages')
        | inr body =>
            if toString_throws body then (inl TypeError, messages')
            else (inr tt, messages')
        end
  end.

(** The loop of [extractMessages]. *)
Fixpoint extract_loop (messages : list value) (extracted : list PumpMessage)
  : exn + list PumpMessage :=
  match messages with
  | [] => inr extracted
  | message :: rest =>
      match JS.get_field message "username",
            JS.get_field message "message" with
      | inr name, inr body =>
          extract_loop rest (extracted ++ [mkPumpMessage name body])
      | inl e, _ => inl e
      | _, inl e => inl e
      end
  end.

(** [extractMessages()]: the entries, and the module's [messages]
    after the call (emptied only when the loop has come to its end). *)
Definition extractMessages (messages : list value)
  : (exn + list PumpMessage) * list value :=
  match extract_loop messages [] with
  | inr extracted => (inr extracted, [])
  | inl e => (inl e, messages)
  end.

(** The messages the listener has been called with, in a list of
    emitted events. *)
Definition emitted_messages (events : list emitted_event) : list value :=
  omap (fun e => match e with Message m => Some m | _ => None end) events.

(** The module's [messages] after the listener has seen each of them. *)
Definition enqueue_all (ms : list value) (messages : list value) : list value :=
  foldl (fun q m => (on_message m q).2) messages ms.

(** Not null and not undefined. *)
Definition is_nullish (v : value) : bool :=
  match v with VNull | VUndef => true | _ => false end.

(** A client that is connected has its connection. *)
Definition connection_present (st : state) : Prop :=
  isConnected st = true → is_Some (connection st).

(** The frame of the join request. *)
Definition joinRoom_frame (st : state) : string :=
  "42" +:+ JS.Z_to_string (ackId st)
  +:+ JSON.dq "['joinRoom',{'roomId':'" +:+ roomId st
  +:+ JSON.dq "','username':'" +:+ username st +:+ JSON.dq "'}]".

(** Every sweep timer that is live has the period 10000. *)
Definition cleanup_period (st : state) : Prop :=
  ∀ id period, (id, CleanupTimer period) ∈ timers st → period = 10000.

(** * Properties *)

(** Integer arithmetic on symbolic operands is left to [lia]. *)
#[local] Arguments Z.pow : simpl never.
#[local] Arguments Z.mul : simpl never.
#[local] Arguments Z.add : simpl never.
#[local] Arguments Z.sub : simpl never.
#[local] Arguments Z.min : simpl never.
#[local] Arguments Z.modulo : simpl never.
#[local] Arguments Z.ltb : simpl never.
#[local] Arguments Z.leb : simpl never.
#[local] Arguments Z.eqb : simpl never.

(** Unfolds the monad's plumbing so that a method's body computes on a
    symbolic state. *)
Ltac run_monad :=
  cbv [mbind M_bind mret M_ret get modify throw try_catch lift when
       emit console_error set_timer clear_timer alloc store Date_now
       set_connection set_messageHistory set_isConnected set_pingInterval
       set_reconnectAttempts set_ackId set_pendingAcks set_heap set_timers
       set_next_timer set_sent set_closed set_connect_calls set_emitted
       set_console set_clock
       connection roomId username messageHistory messageHistoryLimit
       isConnected pingInterval reconnectAttempts maxReconnectAttempts
       ackId pendingAcks heap timers next_timer sent closed connect_calls
       emitted console clock];
  cbn.

(** The fields of a symbolic state, under names that do not hide the
    projections. *)
Ltac open_state st :=
  destruct st as [f_conn f_room f_name f_buf f_limit f_active f_ping
                  f_attempts f_budget f_aid f_acks f_heap f_timers f_next
                  f_sent f_closed f_calls f_events f_log f_clock].

(** Reads the fields of an opened state, and nothing else. *)
Ltac fields :=
  cbn [connection roomId username messageHistory messageHistoryLimit
       isConnected pingInterval reconnectAttempts maxReconnectAttempts
       ackId pendingAcks heap timers next_timer sent closed connect_calls
       emitted console clock fst snd] in *.

(** ** Equations of the small methods *)

Lemma stopPing_eq (st : state) :
  stopPing st =
  (inr tt,
   match pingInterval st with
   | Some id =>
       set_pingInterval None
         (set_timers (filter (fun p => p.1 ≠ id) (timers st)) st)
   | None => st
   end).
Proof.
  open_state st.
  unfold stopPing. run_monad. destruct f_ping; reflexivity.
Qed.

Lemma attemptReconnect_eq (st : state) :
  attemptReconnect st =
  (inr tt,
   if reconnectAttempts st <? maxReconnectAttempts st then
     set_next_timer (S (next_timer st))
       (set_timers
          (timers st ++
           [(next_timer st,
             ReconnectTimer
               (Z.min (1000 * 2 ^ (reconnectAttempts st + 1)) 30000))])
          (set_console (console st ++ ["[INFO] Attempting to reconnect"])
             (set_emitted (emitted st ++ [TryReconnect])
                (set_reconnectAttempts (reconnectAttempts st + 1) st))))
   else set_emitted (emitted st ++ [MaxReconnectAttemptsReached]) st).
Proof.
  open_state st.
  unfold attemptReconnect. run_monad.
  destruct (f_attempts <? f_budget); reflexivity.
Qed.

Lemma disconnect_eq (st : state) :
  disconnect st =
  (inr tt,
   let st1 := (stopPing st).2 in
   match connection st with
   | Some c => set_closed (closed st ++ [c]) st1
   | None => st1
   end).
Proof.
  open_state st.
  unfold disconnect. rewrite stopPing_eq. run_monad.
  destruct f_ping, f_conn; reflexivity.
Qed.

(** ** C5: the reconnect policy *)

(** C5.  With the budget of 5 attempts, the k-th consecutive failure
    (the counter stands at k - 1) schedules one connect attempt after
    min(1000 * 2^k, 30000) ms for k = 1..5, and for k = 6 schedules
    nothing and emits the give-up event once.  From a new client, five
    failures leave exactly the delays 2000, 4000, 8000, 16000, 30000
    and no give-up event; the sixth adds no delay and emits exactly one
    give-up event. *)
Theorem reconnect_backoff (st : state) (k : Z) :
  maxReconnectAttempts st = 5 →
  reconnectAttempts st = k - 1 →
  1 ≤ k ≤ 6 →
  let st' := (attemptReconnect st).2 in
  (attemptReconnect st).1 = inr tt
  ∧ timers st' =
      timers st ++
      (if k <=? 5
       then [(next_timer st, ReconnectTimer (Z.min (1000 * 2 ^ k) 30000))]
       else [])
  ∧ emitted st' =
      emitted st ++
      [if k <=? 5 then TryReconnect else MaxReconnectAttemptsReached]
  ∧ connect_calls st' = connect_calls st
  ∧ (∀ r u n,
       let c := new_client r u n in
       reconnect_delays (final (failures 5) c)
         = [2000; 4000; 8000; 16000; 30000]
       ∧ List.filter is_give_up (emitted (final (failures 5) c)) = []
       ∧ reconnect_delays (final (failures 6) c)
         = [2000; 4000; 8000; 16000; 30000]
       ∧ List.filter is_give_up (emitted (final (failures 6) c))
         = [MaxReconnectAttemptsReached]).
Proof.
  intros Hmax Hk Hrange st'. subst st'. rewrite attemptReconnect_eq.
  assert (Hruns : ∀ r u n,
             let c := new_client r u n in
             reconnect_delays (final (failures 5) c)
               = [2000; 4000; 8000; 16000; 30000]
             ∧ List.filter is_give_up (emitted (final (failures 5) c)) = []
             ∧ reconnect_delays (final (failures 6) c)
               = [2000; 4000; 8000; 16000; 30000]
             ∧ List.filter is_give_up (emitted (final (failures 6) c))
               = [MaxReconnectAttemptsReached])
    by (intros; split_and!; vm_compute; reflexivity).
  split_and!; [| | | | exact Hruns];
    open_state st; cbn in Hmax, Hk; subst f_attempts f_budget; run_monad;
    destruct (Z.ltb_spec (k - 1) 5) as [Hlt | Hge];
    destruct (Z.leb_spec k 5) as [Hle | Hgt]; try lia; cbn;
    rewrite ?app_nil_r; try reflexivity.
  replace (k - 1 + 1) with k by lia. reflexivity.
Qed.

Lemma reconnect_backoff_witness :
  let st := final (failures 4) (new_client "room" None None) in
  maxReconnectAttempts st = 5
  ∧ reconnectAttempts st = 5 - 1
  ∧ timers (attemptReconnect st).2 =
      timers st ++
      (if 5 <=? 5
       then [(next_timer st, ReconnectTimer (Z.min (1000 * 2 ^ 5) 30000))]
       else []).
Proof.
  intros st.
  assert (Hmax : maxReconnectAttempts st = 5) by (vm_compute; reflexivity).
  assert (Hk : reconnectAttempts st = 5 - 1) by (vm_compute; reflexivity).
  assert (Hrange : 1 ≤ 5 ≤ 6) by lia.
  split_and!; [exact Hmax | exact Hk |].
  exact (proj1 (proj2 (reconnect_backoff st 5 Hmax Hk Hrange))).
Defined.

(** ** The sweep of the pending acknowledgments *)

Lemma cleanupStaleAcks_eq (st : state) :
  cleanupStaleAcks st =
  (inr tt,
   set_pendingAcks
     (foldr (fun '(id, ack) acks =>
               if ack_timeout <? clock st - timestamp ack
               then delete id acks else acks)
            (pendingAcks st) (map_to_list (pendingAcks st)))
     st).
Proof. open_state st. unfold cleanupStaleAcks. run_monad. reflexivity. Qed.

(** Deleting the stale entries of a list of entries from a map keeps
    exactly the bindings whose key has no stale entry in the list. *)
Lemma sweep_lookup (now : Z) (l : list (Z * pending)) (m : gmap Z pending)
    (i : Z) (p : pending) :
  foldr (fun '(id, ack) acks =>
           if ack_timeout <? now - timestamp ack
           then delete id acks else acks) m l !! i = Some p
  ↔ m !! i = Some p
    ∧ ∀ q, (i, q) ∈ l → (ack_timeout <? now - timestamp q) = false.
Proof.
  induction l as [| [j q] l IH]; cbn.
  - split; [intros H; split; [exact H | intros q Hq; inversion Hq] | tauto].
  - destruct (ack_timeout <? now - timestamp q) eqn:Hstale.
    + destruct (decide (j = i)) as [-> | Hne].
      * rewrite lookup_delete_eq. split; [discriminate |].
        intros [_ Hall]. specialize (Hall q (list_elem_of_here _ _)).
        congruence.
      * rewrite lookup_delete_ne by exact Hne. rewrite IH.
        split; intros [Hm Hall]; split; try exact Hm; intros q' Hq'.
        -- apply elem_of_cons in Hq' as [Heq | Hin]; [congruence |].
           exact (Hall q' Hin).
        -- apply Hall. apply list_elem_of_further. exact Hq'.
    + rewrite IH.
      split; intros [Hm Hall]; split; try exact Hm; intros q' Hq'.
      * apply elem_of_cons in Hq' as [Heq | Hin].
        -- injection Heq as _ ->. exact Hstale.
        -- exact (Hall q' Hin).
      * apply Hall. apply list_elem_of_further. exact Hq'.
Qed.

(** ** C10: what [disconnect()] leaves alone *)

Lemma getMessages_reads_buffer_only (st1 st2 : state) (limit : option Z) :
  heap st1 = heap st2 →
  messageHistory st1 = messageHistory st2 →
  (getMessages limit st1).1 = (getMessages limit st2).1
  ∧ heap (getMessages limit st1).2 = heap (getMessages limit st2).2.
Proof.
  intros Hheap Hbuf.
  destruct st1 as [c1 r1 u1 b1 l1 a1 p1 at1 bu1 ai1 ac1 h1 t1 n1 s1 cl1
                   cc1 e1 lg1 ck1].
  open_state st2. cbn in Hheap, Hbuf. subst h1 b1.
  unfold getMessages, slice_last, spread. run_monad.
  destruct limit as [n |]; [destruct (n =? 0) |];
    destruct (f_heap !! f_buf) as [[] |]; split; reflexivity.
Qed.

(** C10.  [disconnect()] returns normally from every state and leaves
    the history buffer (the reference and every object on the heap)
    and the pending-acknowledgment table unchanged; hence
    [getMessages] gives the same result before and after it, and every
    pending entry is still present. *)
Theorem disconnect_preserves_history_and_pending (st : state) :
  let st' := (disconnect st).2 in
  (disconnect st).1 = inr tt
  ∧ messageHistory st' = messageHistory st
  ∧ heap st' = heap st
  ∧ pendingAcks st' = pendingAcks st
  ∧ (∀ limit,
       (getMessages limit st').1 = (getMessages limit st).1
       ∧ heap (getMessages limit st').2 = heap (getMessages limit st).2)
  ∧ (∀ id p, pendingAcks st !! id = Some p → pendingAcks st' !! id = Some p).
Proof.
  intros st'.
  assert (H : (disconnect st).1 = inr tt
              ∧ messageHistory st' = messageHistory st
              ∧ heap st' = heap st
              ∧ pendingAcks st' = pendingAcks st).
  { subst st'. rewrite disconnect_eq, stopPing_eq. open_state st.
    destruct f_ping, f_conn; split_and!; reflexivity. }
  destruct H as (Hret & Hbuf & Hheap & Hacks).
  split_and!; try assumption.
  - intros limit. apply getMessages_reads_buffer_only; assumption.
  - intros id p Hp. rewrite Hacks. exact Hp.
Qed.

(** ** C4: [sendMessage] on a client that is not connected *)

(** C4 as amended.  When [isActive()] is false, [sendMessage(text)]
    returns normally, writes nothing to the transport, leaves the
    pending-acknowledgment table and the id counter unchanged and emits
    no event: the failure is one line on the error console. *)
Theorem sendMessage_when_not_active (st : state) (text : string) :
  isActive st = false →
  let st' := (sendMessage text st).2 in
  (sendMessage text st).1 = inr tt
  ∧ sent st' = sent st
  ∧ pendingAcks st' = pendingAcks st
  ∧ ackId st' = ackId st
  ∧ emitted st' = emitted st
  ∧ console st' = console st ++ ["Cannot send message: not connected"].
Proof.
  intros Hinactive st'. subst st'. open_state st.
  unfold isActive in Hinactive. cbn in Hinactive. subst f_active.
  unfold sendMessage. run_monad. split_and!; reflexivity.
Qed.

Lemma sendMessage_when_not_active_witness :
  let c := new_client "room" None None in
  isActive c = false
  ∧ sent (sendMessage "hello" c).2 = sent c
  ∧ pendingAcks (sendMessage "hello" c).2 = pendingAcks c.
Proof.
  intros c.
  assert (Hinactive : isActive c = false) by reflexivity.
  pose proof (sendMessage_when_not_active c "hello" Hinactive)
    as (_ & Hsent & Hacks & _).
  split_and!; [exact Hinactive | exact Hsent | exact Hacks].
Defined.

(** C4 as stated fails: a new client is not active, and [sendMessage]
    on it emits no event at all, so no error event reaches a listener. *)
Lemma sendMessage_emits_no_error_event :
  let c := new_client "room" None None in
  isActive c = false
  ∧ ¬ ∃ ev, ev ∈ emitted (sendMessage "hello" c).2.
Proof.
  intros c. split; [reflexivity |].
  intros [ev Hev]. vm_compute in Hev. inversion Hev.
Qed.

(** ** C3: [disconnect()] and the reconnect policy *)

(** C3, the code at the failing input.  A connected client with a
    running keepalive calls [disconnect()]: the keepalive timer is
    stopped and the transport is asked to close, but the close handler
    then schedules a connect attempt after 2000 ms all the same, and
    when that timer fires the client connects again.  Likewise a
    [disconnect()] during the delay after a failed connect leaves the
    pending attempt in place. *)
Theorem disconnect_still_reconnects :
  let c := new_client "room" None None in
  let closing := opening 1 ++ [(5000, CallDisconnect); (5001, TransportClose)] in
  let waiting := [(0, CallConnect); (10, TransportFailed "ECONNREFUSED");
                  (20, CallDisconnect)] in
  (run closing c).2 = None
  ∧ pingInterval (final (opening 1) c) = Some 1%nat
  ∧ pingInterval (final closing c) = None
  ∧ timers (final closing c)
    = [(0%nat, CleanupTimer 10000); (2%nat, ReconnectTimer 2000)]
  ∧ closed (final closing c) = [1%nat]
  ∧ emitted (final closing c) = [Connected; Disconnected None; TryReconnect]
  ∧ connect_calls (final closing c) = 1%nat
  ∧ connect_calls (final (closing ++ [(7001, TimerFires 2)]) c) = 2%nat
  ∧ timers (final waiting c) = [(0%nat, ReconnectTimer 2000)]
  ∧ connect_calls (final (waiting ++ [(2010, TimerFires 0)]) c) = 2%nat.
Proof. split_and!; vm_compute; reflexivity. Qed.

(** ** C1: the bound of the history buffer *)

Lemma handleNewMessage_eq (st : state) (m : value) (xs : list value) :
  buffer st = Some xs →
  handleNewMessage m st =
  (inr tt,
   set_emitted (emitted st ++ [Message m])
     (set_heap
        (<[messageHistory st :=
             VArr (if messageHistoryLimit st <? Z.of_nat (length (xs ++ [m]))
                   then tail (xs ++ [m]) else xs ++ [m])]> (heap st))
        st)).
Proof.
  unfold buffer, array_at. open_state st. fields. intros Hbuf.
  unfold handleNewMessage. run_monad.
  destruct (f_heap !! f_buf) as [[] |] eqn:Hcell; try discriminate.
  injection Hbuf as ->.
  destruct (f_limit <? Z.of_nat (length (xs ++ [m]))); run_monad.
  - rewrite list_insert_insert_eq. reflexivity.
  - reflexivity.
Qed.

(** The new-message path keeps a buffer within a capacity of at least
    one, dropping the oldest entry of a full buffer. *)
Lemma handleNewMessage_bounded (st : state) (m : value) (xs : list value) :
  buffer st = Some xs →
  1 ≤ messageHistoryLimit st →
  Z.of_nat (length xs) ≤ messageHistoryLimit st →
  ∃ ys, buffer (handleNewMessage m st).2 = Some ys
        ∧ Z.of_nat (length ys) ≤ messageHistoryLimit st
        ∧ ys = (if Z.of_nat (length xs) =? messageHistoryLimit st
                then tail xs ++ [m] else xs ++ [m]).
Proof.
  intros Hbuf Hcap Hlen. rewrite (handleNewMessage_eq st m xs Hbuf).
  unfold buffer, array_at in *. open_state st.
  unfold set_emitted, set_heap. fields.
  assert (Hin : (f_buf < length f_heap)%nat).
  { destruct (f_heap !! f_buf) as [v |] eqn:Hcell; [| discriminate].
    eapply lookup_lt_Some. exact Hcell. }
  rewrite list_lookup_insert_eq by exact Hin.
  rewrite length_app. cbn [length].
  destruct (Z.ltb_spec f_limit (Z.of_nat (length xs + 1)));
    destruct (Z.eqb_spec (Z.of_nat (length xs)) f_limit); try lia;
    eexists; split_and!; try reflexivity.
  - destruct xs as [| x xs]; cbn in *; [lia |]. rewrite length_app. cbn. lia.
  - destruct xs as [| x xs]; cbn in *; [lia | reflexivity].
  - rewrite length_app. cbn. lia.
Qed.

(** C1, the code at the failing input.  With capacity 2, a history
    response that carries three messages becomes the buffer as it is:
    [getMessages()] then returns three entries, and a new message
    after it evicts one entry and leaves three again.  The buffer is
    bounded on the new-message path only. *)
Theorem history_response_exceeds_capacity :
  let c := new_client "room" None (Some 2) in
  let history :=
    "431[[" +:+ message_json "m1" +:+ "," +:+ message_json "m2" +:+ ","
    +:+ message_json "m3" +:+ "]]" in
  let fetched := joining 1 ++ [(50, Frame history)] in
  let later :=
    fetched ++ [(60, Frame (JSON.dq "42['newMessage'," +:+ message_json "m4" +:+ "]"))] in
  messageHistoryLimit c = 2
  ∧ (run later c).2 = None
  ∧ (length <$> buffer (final fetched c)) = Some 3%nat
  ∧ (length <$> buffer (final later c)) = Some 3%nat
  ∧ (let st := final fetched c in
     let '(r, st') := getMessages None st in
     match r with
     | inr l => length <$> array_at st' l
     | inl _ => None
     end = Some 3%nat).
Proof. split_and!; vm_compute; reflexivity. Qed.

(** ** C2: the example handshake *)

(** C2.  From a new client, the caller's [connect()], the opening of
    the transport and the four frames of the example run without an
    error: [isActive()] turns true exactly once (when the transport
    opens), and exactly one history event is emitted, whose payload is
    an array of exactly one message, with identifier m1. *)
Theorem example_handshake (r : string) (u : option string) (n : option Z)
    (socket : nat) :
  let c := new_client r u n in
  let turns :=
    joining socket ++ [(50, Frame ("431[[" +:+ message_json "m1" +:+ "]]"))] in
  (run turns c).2 = None
  ∧ activations (isActive c) (isActive <$> (run turns c).1) = 1%nat
  ∧ isActive (final turns c) = true
  ∧ ∃ l m,
      List.filter is_history_ready (emitted (final turns c)) = [MessageHistory l]
      ∧ array_at (final turns c) l = Some [m]
      ∧ JS.get_field m "id" = inr (VStr "m1")
      ∧ buffer (final turns c) = Some [m].
Proof.
  intros c turns. subst c turns.
  split_and!; [vm_compute; reflexivity .. |].
  eexists _, _. split_and!; vm_compute; reflexivity.
Qed.

Lemma handleNewMessage_limit (st : state) (m : value) (xs : list value) :
  buffer st = Some xs →
  messageHistoryLimit (handleNewMessage m st).2 = messageHistoryLimit st.
Proof.
  intros Hbuf. rewrite (handleNewMessage_eq st m xs Hbuf).
  open_state st. reflexivity.
Qed.

(** After any number of new messages, a buffer that was within a
    capacity N >= 1 holds the last N entries of what it held followed
    by the messages, in arrival order. *)
Lemma receive_keeps_last (ms : list value) :
  ∀ (st : state) (xs : list value),
    buffer st = Some xs →
    1 ≤ messageHistoryLimit st →
    Z.of_nat (length xs) ≤ messageHistoryLimit st →
    buffer (receive ms st)
    = Some (drop (length (xs ++ ms) - Z.to_nat (messageHistoryLimit st))
                 (xs ++ ms)).
Proof.
  induction ms as [| m ms IH]; intros st xs Hbuf Hcap Hlen.
  - cbn [receive foldl]. rewrite app_nil_r.
    replace (length xs - Z.to_nat (messageHistoryLimit st))%nat
      with 0%nat by lia.
    exact Hbuf.
  - change (receive (m :: ms) st)
      with (receive ms (handleNewMessage m st).2).
    destruct (handleNewMessage_bounded st m xs Hbuf Hcap Hlen)
      as (ys & Hys & Hlen' & Heq).
    pose proof (handleNewMessage_limit st m xs Hbuf) as Hlimit.
    rewrite (IH _ ys Hys) by (rewrite Hlimit; assumption).
    rewrite Hlimit. f_equal.
    destruct (Z.eqb_spec (Z.of_nat (length xs)) (messageHistoryLimit st))
      as [Hfull | Hroom]; subst ys.
    + destruct xs as [| x xs]; [cbn in Hfull; lia |].
      cbn [tail]. rewrite <- !app_assoc. cbn [app].
      replace (length (x :: xs ++ m :: ms)
               - Z.to_nat (messageHistoryLimit st))%nat
        with (S (length (xs ++ m :: ms)
                 - Z.to_nat (messageHistoryLimit st)))%nat.
      * reflexivity.
      * cbn [length] in *. rewrite !length_app in *. cbn [length] in *. lia.
    + rewrite <- app_assoc. reflexivity.
Qed.

(** The first half of C1, which the code has: with a capacity N >= 1,
    M > N new messages received by a new client leave exactly the
    last N in the buffer, in arrival order. *)
Lemma new_messages_keep_last_N (room : string) (N : Z) (ms : list value) :
  1 ≤ N →
  N < Z.of_nat (length ms) →
  buffer (receive ms (new_client room None (Some N)))
  = Some (drop (length ms - Z.to_nat N) ms)
  ∧ length (drop (length ms - Z.to_nat N) ms) = Z.to_nat N.
Proof.
  intros Hcap Hmore.
  assert (Hlimit : messageHistoryLimit (new_client room None (Some N)) = N).
  { cbn. destruct (Z.eqb_spec N 0); [lia | reflexivity]. }
  split.
  - assert (Hempty : buffer (new_client room None (Some N)) = Some [])
      by reflexivity.
    rewrite (receive_keeps_last ms _ [] Hempty)
      by (rewrite Hlimit; cbn [length]; lia).
    rewrite Hlimit. reflexivity.
  - rewrite length_drop. lia.
Qed.

(** ** C6: [getMessages] returns a snapshot *)

Lemma keeps_ret {A} (a : A) : keeps (mret a).
Proof. intros l v st H. exact H. Qed.

Lemma keeps_throw {A} (e : exn) : keeps (@throw A e).
Proof. intros l v st H. exact H. Qed.

Lemma keeps_get : keeps get.
Proof. intros l v st H. exact H. Qed.

Lemma keeps_bind {A B} (m : M A) (f : A → M B) :
  keeps m → (∀ a, keeps (f a)) → keeps (m ≫= f).
Proof.
  intros Hm Hf l v st H. specialize (Hm l v st H).
  unfold mbind, M_bind. destruct (m st) as [[e | a] st1]; cbn in *.
  - exact Hm.
  - apply Hf. exact Hm.
Qed.

Lemma keeps_try_catch {A} (body : M A) (handler : exn → M A) :
  keeps body → (∀ e, keeps (handler e)) → keeps (try_catch body handler).
Proof.
  intros Hb Hh l v st H. specialize (Hb l v st H).
  unfold try_catch. destruct (body st) as [[e | a] st1]; cbn in *.
  - apply Hh. exact Hb.
  - exact Hb.
Qed.

Lemma keeps_lift {A} (r : exn + A) : keeps (lift r).
Proof. destruct r; [apply keeps_throw | apply keeps_ret]. Qed.

Lemma keeps_when (b : bool) (m : M unit) : keeps m → keeps (when b m).
Proof. destruct b; [auto | intros _; apply keeps_ret]. Qed.

(** A change of fields other than the heap and the buffer reference. *)
Lemma keeps_modify (f : state → state) :
  (∀ st, heap (f st) = heap st ∧ messageHistory (f st) = messageHistory st) →
  keeps (modify f).
Proof.
  intros Hf l v st [Hcell Hne]. destruct (Hf st) as [Hh Hb].
  unfold detached, modify. cbn. rewrite Hh, Hb. split; assumption.
Qed.

Lemma keeps_alloc (w : value) : keeps (alloc w).
Proof.
  intros l v st [Hcell Hne]. open_state st. unfold alloc. run_monad.
  unfold detached in *. fields. split; [| exact Hne].
  apply lookup_app_l_Some. exact Hcell.
Qed.

Lemma keeps_JSON_parse (text : string) : keeps (JSON_parse text).
Proof.
  unfold JSON_parse. destruct (JSON.parse text);
    [apply keeps_ret | apply keeps_throw].
Qed.

Lemma keeps_handleNewMessage (m : value) : keeps (handleNewMessage m).
Proof.
  intros l v st [Hcell Hne]. open_state st. unfold detached in *. fields.
  unfold handleNewMessage. run_monad.
  destruct (f_heap !! f_buf) as [[] |]; run_monad; try (split; assumption).
  destruct (f_limit <? _); run_monad;
    (split; [| exact Hne]);
    rewrite ?list_lookup_insert_ne by exact Hne; exact Hcell.
Qed.

Lemma keeps_replace_history (w : value) : keeps (replace_history w).
Proof.
  intros l v st [Hcell Hne]. open_state st. unfold detached in *. fields.
  unfold replace_history. run_monad. split.
  - apply lookup_app_l_Some. exact Hcell.
  - apply lookup_lt_Some in Hcell. lia.
Qed.

(** Solves [keeps] goals over the structure of a method's body. *)
Ltac keeps_step :=
  match goal with
  | |- keeps (mbind _ _) => apply keeps_bind; [| intros ?]
  | |- keeps (_ ≫= _) => apply keeps_bind; [| intros ?]
  | |- keeps (try_catch _ _) => apply keeps_try_catch; [| intros ?]
  | |- keeps (mret _) => apply keeps_ret
  | |- keeps (throw _) => apply keeps_throw
  | |- keeps get => apply keeps_get
  | |- keeps (lift _) => apply keeps_lift
  | |- keeps (when _ _) => apply keeps_when
  | |- keeps (alloc _) => apply keeps_alloc
  | |- keeps (JSON_parse _) => apply keeps_JSON_parse
  | |- keeps (handleNewMessage _) => apply keeps_handleNewMessage
  | |- keeps (replace_history _) => apply keeps_replace_history
  | |- keeps (modify _) =>
      apply keeps_modify; intros [];
      cbv [set_connection set_isConnected set_pingInterval
           set_reconnectAttempts set_ackId set_pendingAcks set_timers
           set_next_timer set_sent set_closed set_connect_calls set_emitted
           set_console set_clock heap messageHistory];
      split; reflexivity
  | |- keeps (if ?c then _ else _) => destruct c
  | |- keeps (match ?x with _ => _ end) => destruct x
  | |- keeps (let '(_, _) := ?x in _) => destruct x
  end.

Ltac keeps_auto := repeat keeps_step.

Lemma keeps_emit (e : emitted_event) : keeps (emit e).
Proof. unfold emit. keeps_auto. Qed.

Lemma keeps_console_error (line : string) : keeps (console_error line).
Proof. unfold console_error. keeps_auto. Qed.

Lemma keeps_set_timer (t : timer) : keeps (set_timer t).
Proof. unfold set_timer. keeps_auto. Qed.

Lemma keeps_clear_timer (id : nat) : keeps (clear_timer id).
Proof. unfold clear_timer. keeps_auto. Qed.

Lemma keeps_send (data : string) : keeps (send data).
Proof.
  unfold send. keeps_auto; first [apply keeps_console_error | idtac].
Qed.

Lemma keeps_stopPing : keeps stopPing.
Proof. unfold stopPing. keeps_auto. apply keeps_clear_timer. Qed.

Lemma keeps_attemptReconnect : keeps attemptReconnect.
Proof.
  unfold attemptReconnect. keeps_auto;
    first [apply keeps_emit | apply keeps_console_error
          | apply keeps_set_timer].
Qed.

Lemma keeps_requestMessageHistory : keeps requestMessageHistory.
Proof.
  unfold requestMessageHistory, getNextAckId, pendingAcks_set, Date_now.
  keeps_auto. apply keeps_send.
Qed.

Lemma keeps_handleMessage (data : string) : keeps (handleMessage data).
Proof.
  unfold handleMessage, handleConnect, handleConnectedAck, handleDisconnect,
    handleEvent, handleEventWithAck, handleNumberedAck, sendPong, startPing,
    getNextAckId, pendingAcks_set, Date_now.
  keeps_auto;
    first [apply keeps_emit | apply keeps_console_error | apply keeps_send
          | apply keeps_stopPing | apply keeps_set_timer
          | apply keeps_attemptReconnect | apply keeps_requestMessageHistory].
Qed.

Lemma keeps_dispatch (i : input) : keeps (dispatch i).
Proof.
  destruct i; cbn [dispatch];
    unfold disconnect, sendMessage, getMessages, slice_last, spread,
      onConnect, onConnectFailed, onError, onClose, onMessage, onTimer,
      connect, cleanupStaleAcks, getNextAckId, pendingAcks_set, Date_now;
    keeps_auto;
    first [apply keeps_emit | apply keeps_console_error | apply keeps_send
          | apply keeps_stopPing | apply keeps_set_timer
          | apply keeps_clear_timer | apply keeps_attemptReconnect
          | apply keeps_handleMessage].
Qed.

Lemma last_cons_default {A} (a d : A) (l : list A) :
  List.last (a :: l) d = List.last l a.
Proof.
  revert a d. induction l as [| b l IH]; intros a d; [reflexivity |].
  change (List.last (a :: b :: l) d) with (List.last (b :: l) d).
  rewrite !IH. reflexivity.
Qed.

Lemma final_cons (now : Z) (i : input) (rest : list (Z * input)) (st : state) :
  final ((now, i) :: rest) st =
  match step now i st with
  | (inr _, st') => final rest st'
  | (inl _, st') => st'
  end.
Proof.
  unfold final. cbn [run].
  destruct (step now i st) as [[e | []] st']; [reflexivity |].
  destruct (run rest st') as [trace err]. cbn [fst].
  apply last_cons_default.
Qed.

(** No turn of the event loop changes a detached object. *)
Lemma detached_final (l : loc) (v : value) (turns : list (Z * input)) :
  ∀ st, detached l v st → detached l v (final turns st).
Proof.
  induction turns as [| [now i] rest IH]; intros st H; [exact H |].
  rewrite final_cons.
  assert (Hstep : detached l v (step now i st).2).
  { unfold step. apply keeps_dispatch.
    destruct H as [Hcell Hne]. open_state st. split; assumption. }
  destruct (step now i st) as [[e | []] st']; cbn in Hstep.
  - exact Hstep.
  - apply IH. exact Hstep.
Qed.

Lemma slice_from_last {A} (n : Z) (xs : list A) :
  1 ≤ n ≤ Z.of_nat (length xs) →
  JS.slice_from (- n) xs = drop (length xs - Z.to_nat n) xs.
Proof.
  intros Hn. unfold JS.slice_from.
  destruct (Z.ltb_spec (- n) 0) as [_ | Hge]; [| lia].
  f_equal. lia.
Qed.

(** X25.  On an array buffer, [getMessages(limit)] with
    1 <= limit <= length returns a new array holding exactly the last
    [limit] entries in order, and [getMessages()] a new array holding
    all of them.  The result is an object of its own, distinct from the
    live buffer, which is unchanged by the call; and whatever the
    client does afterwards, in any number of turns of the event loop,
    the returned array stays as it was returned. *)
Theorem getMessages_snapshot (st : state) (xs : list value)
    (limit : option Z) :
  buffer st = Some xs →
  (∀ n, limit = Some n → 1 ≤ n ≤ Z.of_nat (length xs)) →
  let l := length (heap st) in
  let st' := (getMessages limit st).2 in
  let result :=
    match limit with
    | Some n => drop (length xs - Z.to_nat n) xs
    | None => xs
    end in
  (getMessages limit st).1 = inr l
  ∧ array_at st' l = Some result
  ∧ l ≠ messageHistory st'
  ∧ buffer st' = Some xs
  ∧ ∀ turns, array_at (final turns st') l = Some result.
Proof.
  intros Hbuf Hlimit l st' result.
  assert (Hcall : getMessages limit st
                  = (inr l, set_heap (heap st ++ [VArr result]) st)).
  { subst l st' result. unfold buffer, array_at in Hbuf.
    open_state st. fields.
    unfold getMessages, slice_last, spread. run_monad.
    destruct (f_heap !! f_buf) as [[] |]; try discriminate.
    injection Hbuf as ->.
    destruct limit as [n |]; [| reflexivity].
    specialize (Hlimit n eq_refl).
    destruct (Z.eqb_spec n 0) as [-> | _]; [lia |].
    run_monad. rewrite slice_from_last by exact Hlimit. reflexivity. }
  assert (Hin : (messageHistory st < length (heap st))%nat).
  { unfold buffer, array_at in Hbuf.
    destruct (heap st !! messageHistory st) eqn:Hcell; [| discriminate].
    eapply lookup_lt_Some. exact Hcell. }
  assert (Hdet : detached l (VArr result) st').
  { subst st'. rewrite Hcall. subst l. open_state st.
    unfold detached, set_heap. fields. split; [| lia].
    rewrite lookup_app_r by lia. rewrite Nat.sub_diag. reflexivity. }
  subst st'. rewrite Hcall in *. split_and!.
  - reflexivity.
  - unfold array_at. destruct Hdet as [-> _]. reflexivity.
  - destruct Hdet as [_ Hne]. congruence.
  - unfold buffer, array_at in *. subst l. open_state st.
    unfold set_heap. fields.
    destruct (f_heap !! f_buf) as [v |] eqn:Hcell; [| discriminate].
    rewrite (lookup_app_l_Some _ _ _ _ Hcell). exact Hbuf.
  - intros turns. unfold array_at.
    destruct (detached_final l (VArr result) turns _ Hdet) as [-> _].
    reflexivity.
Qed.

Lemma getMessages_snapshot_witness :
  let st := receive [VStr "a"; VStr "b"; VStr "c"]
                    (new_client "room" None None) in
  let st' := (getMessages (Some 2) st).2 in
  buffer st = Some [VStr "a"; VStr "b"; VStr "c"]
  ∧ array_at st' 1%nat = Some [VStr "b"; VStr "c"]
  ∧ array_at (receive [VStr "d"] st') 1%nat = Some [VStr "b"; VStr "c"]
  ∧ buffer (receive [VStr "d"] st')
    = Some [VStr "a"; VStr "b"; VStr "c"; VStr "d"]
  ∧ ∀ turns, array_at (final turns st') 1%nat = Some [VStr "b"; VStr "c"].
Proof.
  intros st st'.
  assert (Hbuf : buffer st = Some [VStr "a"; VStr "b"; VStr "c"])
    by (vm_compute; reflexivity).
  assert (Hlimit : ∀ n, Some 2 = Some n → 1 ≤ n ≤ Z.of_nat 3).
  { intros n Hn. injection Hn as <-. lia. }
  pose proof (getMessages_snapshot st _ (Some 2) Hbuf Hlimit)
    as (_ & Hresult & _ & _ & Hlater).
  split_and!; [exact Hbuf | exact Hresult | | | exact Hlater];
    vm_compute; reflexivity.
Defined.

(** C6, the code at the failing input.  The limit 0 is at most the
    length of every buffer, but [if (limit)] takes it for an absent
    limit: on every array buffer [getMessages(0)] is [getMessages()],
    a new array holding the whole buffer, and not the most recent 0
    entries.  On a buffer that is not empty the call returns more
    messages than the maximum it was given. *)
Theorem getMessages_zero_limit_returns_whole_buffer (st : state)
    (xs : list value) :
  buffer st = Some xs →
  let l := length (heap st) in
  let st' := (getMessages (Some 0) st).2 in
  0 ≤ Z.of_nat (length xs)
  ∧ getMessages (Some 0) st = getMessages None st
  ∧ (getMessages (Some 0) st).1 = inr l
  ∧ array_at st' l = Some xs
  ∧ (xs ≠ [] →
     array_at st' l ≠ Some (drop (length xs - Z.to_nat 0) xs)
     ∧ 0 < Z.of_nat (length xs)).
Proof.
  intros Hbuf l st'.
  assert (Hcall : getMessages (Some 0) st
                  = (inr l, set_heap (heap st ++ [VArr xs]) st)).
  { subst l st'. unfold buffer, array_at in Hbuf.
    open_state st. fields.
    unfold getMessages, slice_last, spread. run_monad.
    destruct (f_heap !! f_buf) as [[] |]; try discriminate.
    injection Hbuf as ->. reflexivity. }
  assert (Hresult : array_at st' l = Some xs).
  { subst st' l. rewrite Hcall. unfold array_at. open_state st.
    unfold set_heap. fields.
    rewrite lookup_app_r by lia. rewrite Nat.sub_diag. reflexivity. }
  split_and!.
  - lia.
  - reflexivity.
  - rewrite Hcall. reflexivity.
  - exact Hresult.
  - intros Hne. split.
    + rewrite Hresult. intros Heq. injection Heq as Heq.
      apply Hne. apply (f_equal length) in Heq.
      rewrite length_drop in Heq.
      destruct xs; [reflexivity | cbn in Heq; lia].
    + destruct xs; [congruence | cbn; lia].
Qed.

Lemma getMessages_zero_limit_returns_whole_buffer_witness :
  let st := receive [VStr "a"; VStr "b"] (new_client "room" None None) in
  buffer st = Some [VStr "a"; VStr "b"]
  ∧ (getMessages (Some 0) st).1 = inr 1%nat
  ∧ array_at (getMessages (Some 0) st).2 1%nat = Some [VStr "a"; VStr "b"]
  ∧ array_at (getMessages (Some 0) st).2 1%nat
    ≠ Some (drop (2 - Z.to_nat 0) [VStr "a"; VStr "b"]).
Proof.
  intros st.
  assert (Hbuf : buffer st = Some [VStr "a"; VStr "b"])
    by (vm_compute; reflexivity).
  assert (Hne : [VStr "a"; VStr "b"] ≠ []) by discriminate.
  pose proof (getMessages_zero_limit_returns_whole_buffer st _ Hbuf)
    as (_ & _ & Hloc & Hresult & Hmore).
  assert (Hlen : length (heap st) = 1%nat) by (vm_compute; reflexivity).
  rewrite Hlen in Hloc, Hresult, Hmore.
  split_and!; [exact Hbuf | exact Hloc | exact Hresult |].
  exact (proj1 (Hmore Hne)).
Defined.

(** ** C7: frames whose payload is not JSON *)

(** The monad's plumbing alone, for bodies that keep symbolic strings
    and maps. *)
Ltac step_monad :=
  cbv [mbind M_bind mret M_ret get modify throw try_catch lift when
       emit console_error set_timer clear_timer alloc store Date_now
       JSON_parse logged option_bind
       set_connection set_messageHistory set_isConnected set_pingInterval
       set_reconnectAttempts set_ackId set_pendingAcks set_heap set_timers
       set_next_timer set_sent set_closed set_connect_calls set_emitted
       set_console set_clock
       connection roomId username messageHistory messageHistoryLimit
       isConnected pingInterval reconnectAttempts maxReconnectAttempts
       ackId pendingAcks heap timers next_timer sent closed connect_calls
       emitted console clock].

(** The correlation id of a numbered acknowledgment is its third
    digit. *)
Lemma numbered_ack_id (mt : string) :
  mt ∈ numbered_acks →
  ∃ id, 0 ≤ id ≤ 9
        ∧ mt = "43" +:+ JS.Z_to_string id
        ∧ JS.parseInt_digits (JS.substring_from 2 mt) = Some id
        ∧ String.length mt = 3%nat.
Proof.
  unfold numbered_acks. intros H.
  repeat (apply elem_of_cons in H as [-> | H]);
    [exists 0 | exists 1 | exists 2 | exists 3 | exists 4 | exists 5
     | exists 6 | exists 7 | exists 8 | exists 9 | inversion H];
    split_and!; try lia; vm_compute; reflexivity.
Qed.

Lemma handleMessage_numbered (data : string) :
  JS.leading_digits data ∈ numbered_acks →
  handleMessage data = handleNumberedAck data.
Proof.
  unfold handleMessage, numbered_acks. intros H.
  repeat (apply elem_of_cons in H as [-> | H]);
    [reflexivity .. | inversion H].
Qed.

(** The switch of [handleMessage] on the prefixes that carry a
    payload. *)
Lemma handleMessage_dispatch (data : string) :
  (JS.leading_digits data = "0" → handleMessage data = handleConnect data)
  ∧ (JS.leading_digits data = "41" →
     handleMessage data = handleDisconnect data)
  ∧ (JS.leading_digits data = "42" → handleMessage data = handleEvent data)
  ∧ (JS.leading_digits data = "43" →
     handleMessage data = handleEventWithAck data).
Proof.
  unfold handleMessage. split_and!; intros ->; reflexivity.
Qed.

(** A connect-info frame whose payload is not JSON: [handleConnect]
    has no [try], the SyntaxError leaves the frame handler. *)
Lemma connect_info_malformed_raises (st : state) (data : string) :
  JS.leading_digits data = "0" →
  JSON.parse (payload data) = None →
  handleMessage data st = (inl SyntaxError, st).
Proof.
  unfold payload. intros Hmt Hbad.
  rewrite (proj1 (handleMessage_dispatch data) Hmt).
  rewrite Hmt in Hbad. cbn [String.length] in Hbad.
  unfold handleConnect. step_monad. rewrite Hbad. reflexivity.
Qed.

Lemma handleNumberedAck_malformed (st : state) (data : string) (id : Z) :
  String.eqb (JS.leading_digits data) "" = false →
  JS.parseInt_digits (JS.substring_from 2 (JS.leading_digits data)) = Some id →
  JSON.parse (JS.substring_from 3 data) = None →
  handleNumberedAck data st =
  logged "Error parsing numbered acknowledgment:"
         (set_pendingAcks (delete id (pendingAcks st)) st).
Proof.
  intros Hmt Hid Hbad. open_state st.
  unfold handleNumberedAck. rewrite Hmt, Hid. step_monad.
  destruct (f_acks !! id) eqn:Hpending; rewrite Hbad.
  - reflexivity.
  - rewrite (delete_id _ _ Hpending). reflexivity.
Qed.

(** C7 as amended.  A frame whose text after the numeric prefix is
    not JSON is handled without an error leaving the frame handler
    when the prefix is 42, 43 or 43<digit>: the failure is one line on
    the error console, no event is emitted and nothing is sent; for 42
    and 43 nothing else changes, for 43<digit> the pending entry of
    that id has been removed before the parse.  A 41 frame is handled
    as a 41 frame without payload (the disconnect goes ahead with the
    default reason), and 40, 2 and 3 never read their payload.  The
    connect-info frame 0 is not covered. *)
Theorem malformed_payload_is_logged (st : state) (data : string) :
  JSON.parse (payload data) = None →
  let mt := JS.leading_digits data in
  (mt = "42" → handleMessage data st = logged "Error parsing event:" st)
  ∧ (mt = "43" →
     handleMessage data st = logged "Error parsing acknowledgment:" st)
  ∧ (mt ∈ numbered_acks →
     ∃ id, 0 ≤ id ≤ 9
           ∧ mt = "43" +:+ JS.Z_to_string id
           ∧ handleMessage data st
             = logged "Error parsing numbered acknowledgment:"
                      (set_pendingAcks (delete id (pendingAcks st)) st))
  ∧ (mt = "41" → handleMessage data st = handleMessage "41" st)
  ∧ (mt = "40" ∨ mt = "2" ∨ mt = "3" →
     handleMessage data st = handleMessage mt st).
Proof.
  intros Hbad mt. subst mt. unfold payload in Hbad. split_and!.
  - intros Hmt. rewrite Hmt in Hbad. cbn [String.length] in Hbad.
    rewrite (proj1 (proj2 (proj2 (handleMessage_dispatch data))) Hmt).
    unfold handleEvent. open_state st. step_monad. rewrite Hbad. reflexivity.
  - intros Hmt. rewrite Hmt in Hbad. cbn [String.length] in Hbad.
    rewrite (proj2 (proj2 (proj2 (handleMessage_dispatch data))) Hmt).
    unfold handleEventWithAck. open_state st. step_monad. rewrite Hbad.
    reflexivity.
  - intros Hmt. rewrite (handleMessage_numbered data Hmt).
    destruct (numbered_ack_id _ Hmt) as (id & Hrange & Hname & Hid & Hlen).
    rewrite Hlen in Hbad. exists id. split_and!; [lia .. | exact Hname |].
    apply handleNumberedAck_malformed; [| exact Hid | exact Hbad].
    rewrite Hname. reflexivity.
  - intros Hmt. rewrite Hmt in Hbad. cbn [String.length] in Hbad.
    rewrite (proj1 (proj2 (handleMessage_dispatch data)) Hmt).
    change (handleMessage "41" st) with (handleDisconnect "41" st).
    unfold handleDisconnect. open_state st. step_monad.
    change (JS.substring_from 2 "41") with "".
    change (String.eqb "" "") with true. cbv iota.
    destruct (String.eqb (JS.substring_from 2 data) ""); [reflexivity |].
    rewrite Hbad. reflexivity.
  - intros [Hmt | [Hmt | Hmt]]; unfold handleMessage; rewrite Hmt;
      reflexivity.
Qed.

Lemma malformed_payload_is_logged_witness :
  let st := final (opening 1) (new_client "room" None None) in
  JSON.parse (payload "42{") = None
  ∧ handleMessage "42{" st = logged "Error parsing event:" st.
Proof.
  intros st.
  assert (Hbad : JSON.parse (payload "42{") = None) by reflexivity.
  split; [exact Hbad |].
  exact (proj1 (malformed_payload_is_logged st "42{" Hbad) eq_refl).
Defined.

(** C7 as stated fails: on a connected client the frame 41 followed
    by a text that is not JSON is not discarded.  The client marks
    itself disconnected, emits the disconnected event with the default
    reason and the reconnect event, and schedules a connect attempt. *)
Lemma malformed_disconnect_frame_changes_state :
  let st := final (opening 1) (new_client "room" None None) in
  let st' := (handleMessage "41{" st).2 in
  JS.leading_digits "41{" = "41"
  ∧ JSON.parse (payload "41{") = None
  ∧ isActive st = true
  ∧ isActive st' = false
  ∧ emitted st'
    = emitted st ++ [Disconnected (Some default_reason); TryReconnect]
  ∧ reconnect_delays st' = [2000]
  ∧ st' ≠ st.
Proof.
  intros st st'. split_and!; try (vm_compute; reflexivity).
  intros Heq. apply (f_equal isConnected) in Heq. vm_compute in Heq.
  discriminate.
Qed.

(** ** C9: the acknowledgments that carry the history *)

Lemma leading_digits_cons (c : ascii) (r : string) :
  JS.is_digit c = true →
  JS.leading_digits (String c r) = String c (JS.leading_digits r).
Proof. intros H. cbn [JS.leading_digits]. rewrite H. reflexivity. Qed.

(** The frame [43<id><rest>] is a numbered acknowledgment with
    correlation id [id] and payload [rest]. *)
Lemma correlated_frame (id : Z) (rest : string) :
  0 ≤ id ≤ 9 →
  JS.leading_digits rest = "" →
  let data := "43" +:+ JS.Z_to_string id +:+ rest in
  JS.leading_digits data ∈ numbered_acks
  ∧ String.eqb (JS.leading_digits data) "" = false
  ∧ JS.parseInt_digits (JS.substring_from 2 (JS.leading_digits data)) = Some id
  ∧ JS.substring_from 3 data = rest.
Proof.
  intros Hid Hrest data. subst data.
  assert (Hcases : id = 0 ∨ id = 1 ∨ id = 2 ∨ id = 3 ∨ id = 4 ∨ id = 5
                   ∨ id = 6 ∨ id = 7 ∨ id = 8 ∨ id = 9) by lia.
  clear Hid.
  repeat (destruct Hcases as [-> | Hcases]); try subst id;
    match goal with
    | |- context [JS.Z_to_string ?k] =>
        let s := eval vm_compute in (JS.Z_to_string k) in
        change (JS.Z_to_string k) with s
    end;
    cbv [String.append];
    rewrite !leading_digits_cons by reflexivity; rewrite Hrest;
    (split_and!; [unfold numbered_acks; set_solver | reflexivity ..]).
Qed.

Lemma generic_frame (rest : string) :
  JS.leading_digits rest = "" →
  JS.leading_digits ("43" +:+ rest) = "43"
  ∧ JS.substring_from 2 ("43" +:+ rest) = rest.
Proof.
  intros Hrest. cbv [String.append].
  rewrite !leading_digits_cons by reflexivity. rewrite Hrest.
  split; reflexivity.
Qed.

Lemma replace_history_eq (st : state) (v : value) :
  replace_history v st =
  (inr tt,
   set_emitted (emitted st ++ [MessageHistory (length (heap st))])
     (set_messageHistory (length (heap st)) (set_heap (heap st ++ [v]) st))).
Proof. open_state st. unfold replace_history. step_monad. reflexivity. Qed.

(** A numbered acknowledgment that resolves to the history request
    and carries JSON. *)
Lemma handleNumberedAck_history (st : state) (data : string) (id : Z)
    (p : pending) (ackData : value) :
  String.eqb (JS.leading_digits data) "" = false →
  JS.parseInt_digits (JS.substring_from 2 (JS.leading_digits data)) = Some id →
  pendingAcks st !! id = Some p →
  event p = "getMessageHistory" →
  JSON.parse (JS.substring_from 3 data) = Some ackData →
  handleNumberedAck data st =
  let st1 := set_pendingAcks (delete id (pendingAcks st)) st in
  match JS.get_first ackData with
  | inl _ => logged "Error parsing numbered acknowledgment:" st1
  | inr first =>
      if JS.isArray first then replace_history first st1 else (inr tt, st1)
  end.
Proof.
  intros Hmt Hid Hpending Hevent Hparse.
  unfold handleNumberedAck. rewrite Hmt, Hid.
  destruct p as [ev ts]. cbn [event] in Hevent. subst ev.
  open_state st. fields. step_monad. rewrite Hpending, Hparse.
  cbv [event]. cbn [String.eqb Ascii.eqb Bool.eqb].
  destruct (JS.get_first ackData) as [e | first]; [reflexivity |].
  destruct (JS.isArray first); [| reflexivity].
  rewrite replace_history_eq. step_monad. reflexivity.
Qed.

(** C9 as amended.  Let the payload be JSON with an element 0.  A
    correlated acknowledgment [43<id>] that resolves to the history
    request makes that element the buffer and emits the history event
    exactly when the element is an array, and otherwise leaves buffer
    and events as they are.  The generic acknowledgment [43] does so
    when the element is an array, and when it is an object with a
    truthy [messages] member, which becomes the buffer.  Neither
    handler changes [isActive()], which the opening of the transport
    has set. *)
Theorem history_acknowledgment_shapes (st : state) (id : Z) (p : pending)
    (rest : string) (ackData first : value) :
  0 ≤ id ≤ 9 →
  pendingAcks st !! id = Some p →
  event p = "getMessageHistory" →
  JS.leading_digits rest = "" →
  JSON.parse rest = Some ackData →
  JS.get_first ackData = inr first →
  let correlated := (handleMessage ("43" +:+ JS.Z_to_string id +:+ rest) st).2 in
  let generic := (handleMessage ("43" +:+ rest) st).2 in
  (if JS.isArray first
   then history_replaced st correlated first
   else history_untouched st correlated)
  ∧ pendingAcks correlated = delete id (pendingAcks st)
  ∧ isActive correlated = isActive st
  ∧ match first with
    | VArr _ => history_replaced st generic first
    | VObj kvs =>
        JS.truthy (JS.obj_get "messages" kvs) = true →
        history_replaced st generic (JS.obj_get "messages" kvs)
    | _ => True
    end
  ∧ isActive generic = isActive st.
Proof.
  intros Hid Hpending Hevent Hrest Hparse Hfirst correlated generic.
  destruct (correlated_frame id rest Hid Hrest) as (Hmt & Hne & Hpid & Hsub).
  destruct (generic_frame rest Hrest) as (Hgmt & Hgsub).
  assert (Hcorr : correlated
                  = (if JS.isArray first
                     then replace_history first
                            (set_pendingAcks (delete id (pendingAcks st)) st)
                     else (inr tt, set_pendingAcks
                                     (delete id (pendingAcks st)) st)).2).
  { subst correlated. rewrite (handleMessage_numbered _ Hmt).
    rewrite <- Hsub in Hparse.
    rewrite (handleNumberedAck_history st _ id p ackData Hne Hpid Hpending
               Hevent Hparse).
    cbv zeta. rewrite Hfirst. reflexivity. }
  assert (Hgen : generic
                 = (let messages :=
                      match first with
                      | VObj kvs => JS.obj_get "messages" kvs
                      | _ => VUndef
                      end in
                    if JS.truthy first && JS.truthy messages
                    then replace_history messages st
                    else if JS.isArray first then replace_history first st
                    else match ackData with
                         | VArr (x :: _) => replace_history x st
                         | _ => (inr tt, st)
                         end).2).
  { subst generic.
    rewrite (proj2 (proj2 (proj2 (handleMessage_dispatch _))) Hgmt).
    unfold handleEventWithAck. rewrite Hgsub. step_monad.
    rewrite Hparse, Hfirst.
    destruct first as [| | b | m e | s | xs | kvs];
      cbn [JS.truthy JS.get_field JS.isArray];
      try destruct b; try destruct (JS.num_is_zero m e) eqn:Hzero;
      try destruct (String.eqb s "") eqn:Hempty;
      try destruct (JS.truthy (JS.obj_get "messages" kvs)) eqn:Hmessages;
      cbn [negb andb]; step_monad;
      cbn [JS.truthy JS.isArray negb andb];
      rewrite ?Hmessages, ?Hzero, ?Hempty;
      cbn [JS.truthy JS.isArray negb andb];
      rewrite ?replace_history_eq; try reflexivity;
      destruct ackData as [| | | | | [| x ys] |];
      rewrite ?replace_history_eq; reflexivity. }
  clearbody correlated generic. subst correlated generic.
  open_state st. unfold isActive, history_replaced, history_untouched.
  split_and!.
  - destruct (JS.isArray first); [rewrite replace_history_eq |];
      step_monad; split_and!; reflexivity.
  - destruct (JS.isArray first); [rewrite replace_history_eq |];
      step_monad; reflexivity.
  - destruct (JS.isArray first); [rewrite replace_history_eq |];
      step_monad; reflexivity.
  - destruct first as [| | b | m e | s | xs | kvs]; try exact I.
    + cbn [JS.truthy JS.isArray andb]. rewrite replace_history_eq.
      step_monad. split_and!; reflexivity.
    + intros Htruthy. cbn [JS.truthy andb]. rewrite Htruthy.
      rewrite replace_history_eq. step_monad. split_and!; reflexivity.
  - repeat match goal with
           | |- context [if ?c then _ else _] => destruct c
           | |- context [match ?x with _ => _ end] => destruct x
           end;
      rewrite ?replace_history_eq; step_monad; reflexivity.
Qed.

Lemma history_acknowledgment_shapes_witness :
  let st := final (joining 1) (new_client "room" None None) in
  let rest := JSON.dq "[[{'id':'m1'}]]" in
  let first := VArr [VObj [("id", VStr "m1")]] in
  pendingAcks st !! 1 = Some (mkPending "getMessageHistory" 40)
  ∧ JSON.parse rest = Some (VArr [first])
  ∧ history_replaced st (handleMessage ("43" +:+ JS.Z_to_string 1 +:+ rest) st).2
                     first
  ∧ history_replaced st (handleMessage ("43" +:+ rest) st).2 first.
Proof.
  intros st rest first.
  assert (Hid : 0 ≤ 1 ≤ 9) by lia.
  assert (Hpending : pendingAcks st !! 1
                     = Some (mkPending "getMessageHistory" 40))
    by (vm_compute; reflexivity).
  assert (Hevent : event (mkPending "getMessageHistory" 40)
                   = "getMessageHistory") by reflexivity.
  assert (Hrest : JS.leading_digits rest = "") by reflexivity.
  assert (Hparse : JSON.parse rest = Some (VArr [first]))
    by (vm_compute; reflexivity).
  assert (Hfirst : JS.get_first (VArr [first]) = inr first) by reflexivity.
  pose proof (history_acknowledgment_shapes st 1 _ rest _ first
                Hid Hpending Hevent Hrest Hparse Hfirst)
    as (Hcorrelated & _ & _ & Hgeneric & _).
  split_and!; [exact Hpending | exact Hparse | exact Hcorrelated
               | exact Hgeneric].
Defined.

(** C9 as stated fails.  After the join, the history request is
    pending under id 1 and the client is active already, with no
    history event emitted.  A correlated acknowledgment whose payload
    is an object with a [messages] array, or a bare array of messages,
    then leaves the buffer empty and emits nothing. *)
Lemma correlated_ack_accepts_one_shape :
  let st := final (joining 1) (new_client "room" None None) in
  let object_shape := JSON.dq "431{'messages':[{'id':'m1'}]}" in
  let bare_array := JSON.dq "431[{'id':'m1'}]" in
  (event <$> pendingAcks st !! 1) = Some "getMessageHistory"
  ∧ JSON.parse (payload object_shape)
    = Some (VObj [("messages", VArr [VObj [("id", VStr "m1")]])])
  ∧ JSON.parse (payload bare_array) = Some (VArr [VObj [("id", VStr "m1")]])
  ∧ isActive st = true
  ∧ List.filter is_history_ready (emitted st) = []
  ∧ buffer (handleMessage object_shape st).2 = Some []
  ∧ emitted (handleMessage object_shape st).2 = emitted st
  ∧ buffer (handleMessage bare_array st).2 = Some []
  ∧ emitted (handleMessage bare_array st).2 = emitted st.
Proof. split_and!; vm_compute; reflexivity. Qed.

(** * Invariants of every run *)

Lemma maintains_ret (I : state → Prop) {A} (a : A) (Q : A → Prop) :
  Q a → maintains I (mret a) Q.
Proof.
  intros Ha st Hst. split; [exact Hst |].
  intros a' Heq. injection Heq as <-. exact Ha.
Qed.

Lemma maintains_throw (I : state → Prop) {A} (e : exn) (Q : A → Prop) :
  maintains I (throw e) Q.
Proof. intros st Hst. split; [exact Hst | discriminate]. Qed.

Lemma maintains_get (I : state → Prop) : maintains I get I.
Proof.
  intros st Hst. split; [exact Hst |].
  intros a Heq. injection Heq as <-. exact Hst.
Qed.

Lemma maintains_modify (I : state → Prop) (f : state → state) :
  (∀ st, I st → I (f st)) → maintains I (modify f) (fun _ => True).
Proof. intros Hf st Hst. split; [apply Hf; exact Hst | trivial]. Qed.

Lemma maintains_bind (I : state → Prop) {A B} (m : M A) (f : A → M B)
    (Q : A → Prop) (R : B → Prop) :
  maintains I m Q →
  (∀ a, Q a → maintains I (f a) R) →
  maintains I (m ≫= f) R.
Proof.
  intros Hm Hf st Hst. destruct (Hm st Hst) as [Hinv Hres].
  unfold mbind, M_bind. destruct (m st) as [[e | a] st1]; cbn in *.
  - split; [exact Hinv | discriminate].
  - apply (Hf a (Hres a eq_refl)). exact Hinv.
Qed.

Lemma maintains_try_catch (I : state → Prop) {A} (body : M A)
    (handler : exn → M A) (Q : A → Prop) :
  maintains I body Q →
  (∀ e, maintains I (handler e) Q) →
  maintains I (try_catch body handler) Q.
Proof.
  intros Hb Hh st Hst. destruct (Hb st Hst) as [Hinv Hres].
  unfold try_catch. destruct (body st) as [[e | a] st1]; cbn in *.
  - apply Hh. exact Hinv.
  - split; [exact Hinv | exact Hres].
Qed.

Lemma maintains_weaken (I : state → Prop) {A} (m : M A) (Q R : A → Prop) :
  (∀ a, Q a → R a) → maintains I m Q → maintains I m R.
Proof.
  intros HQR Hm st Hst. destruct (Hm st Hst) as [Hinv Hres].
  split; [exact Hinv | intros a Ha; apply HQR, Hres, Ha].
Qed.

(** An invariant that every input keeps, and that does not read the
    clock, holds at the end of every run. *)
Lemma invariant_final (I : state → Prop) :
  (∀ now st, I st → I (set_clock now st)) →
  (∀ i, maintains I (dispatch i) (fun _ => True)) →
  ∀ turns st, I st → I (final turns st).
Proof.
  intros Hclock Hdispatch turns.
  induction turns as [| [now i] rest IH]; intros st Hst; [exact Hst |].
  rewrite final_cons.
  pose proof (proj1 (Hdispatch i _ (Hclock now st Hst))) as Hstep.
  fold (step now i st) in Hstep.
  destruct (step now i st) as [[e | []] st']; cbn in Hstep.
  - exact Hstep.
  - apply IH. exact Hstep.
Qed.

(** The head constant of a method call. *)
Ltac method_head m :=
  lazymatch m with
  | ?f _ => method_head f
  | _ => m
  end.

(** One step through the structure of a method's body: [special]
    applies the lemmas of the invariant at hand, [leaf] proves that a
    field update keeps it. *)
Ltac maintains_step special leaf :=
  first
    [ special
    | lazymatch goal with
      | |- maintains _ (mret _) _ => apply maintains_ret; trivial
      | |- maintains _ (throw _) _ => apply maintains_throw
      | |- maintains ?I (mbind ?f get) ?R =>
          apply (maintains_bind I get f I R (maintains_get I)); intros ? ?
      | |- maintains ?I (mbind ?f ?m) ?R =>
          apply (maintains_bind I m f (fun _ => True) R); [| intros ? _]
      | |- maintains _ (try_catch _ _) _ =>
          apply maintains_try_catch; [| intros ?]
      | |- maintains _ (modify _) _ => apply maintains_modify; leaf
      | |- maintains _ (if ?c then _ else _) _ => destruct c eqn:?
      | |- maintains _ (match ?x with _ => _ end) _ => destruct x eqn:?
      | |- maintains _ (let '(_, _) := ?x in _) _ => destruct x
      | |- maintains _ ?m _ => let h := method_head m in unfold h
      end ].

Ltac maintains_auto special leaf := repeat maintains_step special leaf.

(** ** The correlation ids *)

Ltac unfold_setters :=
  cbv [set_connection set_messageHistory set_isConnected set_pingInterval
       set_reconnectAttempts set_ackId set_pendingAcks set_heap set_timers
       set_next_timer set_sent set_closed set_connect_calls set_emitted
       set_console set_clock].

Lemma getNextAckId_in_range :
  maintains ack_ids_in_range getNextAckId (fun id => 0 ≤ id ≤ 9).
Proof.
  intros st [Hc Hk]. open_state st. unfold getNextAckId. run_monad.
  unfold ack_ids_in_range. fields. split; [split |].
  - pose proof (Z.mod_pos_bound (f_aid + 1) 10). lia.
  - exact Hk.
  - intros a Heq. injection Heq as <-. exact Hc.
Qed.

Ltac ack_special :=
  idtac;
  lazymatch goal with
  | |- maintains ?I (mbind ?f getNextAckId) ?R =>
      apply (maintains_bind I getNextAckId f (fun id => 0 ≤ id ≤ 9) R
               getNextAckId_in_range);
      intros ? ?
  end.

Ltac ack_leaf :=
  idtac;
  let s := fresh "s" in
  let Hc := fresh "Hc" in
  let Hk := fresh "Hk" in
  intros s [Hc Hk]; open_state s;
  unfold ack_ids_in_range in *; unfold_setters; fields;
  split; [exact Hc |];
  let id := fresh "id" in
  let p := fresh "p" in
  let Hp := fresh "Hp" in
  intros id p Hp;
  first
    [ exact (Hk id p Hp)
    | apply lookup_insert_Some in Hp as [[<- _] | [_ Hp]];
      [assumption | exact (Hk id p Hp)]
    | apply lookup_delete_Some in Hp as [_ Hp];
      repeat match goal with H : _ ∧ _ |- _ => destruct H end; eauto
    | apply sweep_lookup in Hp as [Hp _]; exact (Hk id p Hp) ].

Lemma dispatch_keeps_ack_ids (i : input) :
  maintains ack_ids_in_range (dispatch i) (fun _ => True).
Proof.
  destruct i; cbn [dispatch]; maintains_auto ack_special ack_leaf.
Qed.

(** A table whose keys are ids 0..9 has at most ten entries. *)
Lemma pending_size_bound (m : gmap Z pending) :
  (∀ id p, m !! id = Some p → 0 ≤ id ≤ 9) → (size m ≤ 10)%nat.
Proof.
  intros Hk. rewrite <- size_dom.
  assert (Hsub : dom m ⊆ (list_to_set (seqZ 0 10) : gset Z)).
  { intros id Hid. apply elem_of_dom in Hid as [p Hp].
    apply elem_of_list_to_set, elem_of_seqZ. specialize (Hk id p Hp). lia. }
  apply subseteq_size in Hsub.
  rewrite size_list_to_set in Hsub by apply NoDup_seqZ.
  rewrite length_seqZ in Hsub. lia.
Qed.

(** X1.  The counter and the keys of the pending table stay ids 0..9 in
    every run, whatever the frames, calls and timers: the table never
    holds more than ten entries. *)
Theorem ack_ids_stay_in_range (turns : list (Z * input)) (st : state) :
  ack_ids_in_range st →
  ack_ids_in_range (final turns st)
  ∧ (size (pendingAcks (final turns st)) ≤ 10)%nat.
Proof.
  intros Hst.
  assert (Hfinal : ack_ids_in_range (final turns st)).
  { apply invariant_final; [| apply dispatch_keeps_ack_ids | exact Hst].
    intros now s Hs. open_state s. exact Hs. }
  split; [exact Hfinal |].
  apply pending_size_bound. exact (proj2 Hfinal).
Qed.

Lemma new_client_ack_ids (room : string) (name : option string)
    (limit : option Z) :
  ack_ids_in_range (new_client room name limit).
Proof.
  split; [cbn; lia |]. intros id p Hp. cbn in Hp.
  rewrite lookup_empty in Hp. discriminate.
Qed.

Lemma ack_ids_stay_in_range_witness :
  let turns := joining 1 ++ [(50, CallSendMessage "gm")] in
  (size (pendingAcks (final turns (new_client "room" None None))) ≤ 10)%nat.
Proof.
  intros turns.
  exact (proj2 (ack_ids_stay_in_range turns _
                  (new_client_ack_ids "room" None None))).
Defined.

(** ** The reconnect counter *)

Ltac no_special := idtac; fail.

Ltac attempts_leaf :=
  idtac;
  let s := fresh "s" in
  let Hm := fresh "Hm" in
  let Ha := fresh "Ha" in
  intros s [Hm Ha]; open_state s;
  unfold attempts_within in *; unfold_setters; fields;
  repeat match goal with
         | H : _ ∧ _ |- _ => destruct H
         | H : (_ <? _) = true |- _ => apply Z.ltb_lt in H
         end;
  split; [assumption | lia].

Lemma dispatch_keeps_attempts (b : Z) (i : input) :
  0 ≤ b → maintains (attempts_within b) (dispatch i) (fun _ => True).
Proof.
  intros Hb. destruct i; cbn [dispatch];
    maintains_auto no_special attempts_leaf.
Qed.

(** X2.  The attempt counter stays between 0 and the budget in every run:
    a failure past the budget does not count further, and an opened
    transport sets the counter back to 0. *)
Theorem reconnect_attempts_stay_within_budget (b : Z)
    (turns : list (Z * input)) (st : state) :
  attempts_within b st →
  attempts_within b (final turns st)
  ∧ (∀ now socket,
       reconnectAttempts (step now (TransportOpen socket) (final turns st)).2
       = 0).
Proof.
  intros Hst. split.
  - apply invariant_final; [| | exact Hst].
    + intros now s Hs. open_state s. exact Hs.
    + intros i. apply dispatch_keeps_attempts.
      destruct Hst as [_ ?]. lia.
  - intros now socket. destruct (final turns st). reflexivity.
Qed.

Lemma reconnect_attempts_stay_within_budget_witness :
  let turns := [(0, CallConnect); (10, TransportFailed "ECONNREFUSED")] in
  0 ≤ reconnectAttempts (final turns (new_client "room" None None)) ≤ 5.
Proof.
  intros turns.
  assert (Hnew : attempts_within 5 (new_client "room" None None))
    by (split; cbn; lia).
  exact (proj2 (proj1 (reconnect_attempts_stay_within_budget 5 turns _ Hnew))).
Defined.

(** ** What a client that is not connected writes *)

Ltac offline_leaf :=
  idtac;
  let s := fresh "s" in
  let Hc := fresh "Hc" in
  let Hs := fresh "Hs" in
  intros s [Hc Hs]; open_state s;
  unfold offline_with in *; unfold_setters; fields;
  repeat match goal with H : _ ∧ _ |- _ => destruct H end;
  first [split; [reflexivity || assumption | assumption] | congruence].

Lemma dispatch_keeps_offline (s : list (nat * string)) (i : input) :
  (∀ socket, i ≠ TransportOpen socket) →
  maintains (offline_with s) (dispatch i) (fun _ => True).
Proof.
  intros Hi. destruct i; cbn [dispatch];
    try (exfalso; eapply Hi; reflexivity);
    maintains_auto no_special offline_leaf.
Qed.

(** X3.  While [isActive()] is false, no turn of the event loop writes to
    the transport: not a caller's [sendMessage], not a frame handler,
    not a timer.  (The opening of the transport makes the client
    active and writes nothing itself.) *)
Theorem offline_client_writes_nothing (now : Z) (i : input) (st : state) :
  isActive st = false →
  sent (step now i st).2 = sent st.
Proof.
  intros Hoff. unfold isActive in Hoff.
  assert (Hinv : offline_with (sent st) (set_clock now st)).
  { open_state st. split; [exact Hoff | reflexivity]. }
  destruct i as [| | text | limit | socket | error | error | | data | id];
    try (refine (proj2 (proj1 (dispatch_keeps_offline _ _ _ _ Hinv)));
         intros socket'; discriminate).
  open_state st. reflexivity.
Qed.

Lemma offline_client_writes_nothing_witness :
  let st := final [(0, CallConnect); (10, TransportFailed "ECONNREFUSED")]
                  (new_client "room" None None) in
  sent (step 20 (Frame "40") st).2 = sent st.
Proof.
  intros st.
  assert (Hoff : isActive st = false) by reflexivity.
  exact (offline_client_writes_nothing 20 (Frame "40") st Hoff).
Defined.

(** ** The timers *)

Lemma NoDup_fst_filter {B} (P : nat * B → Prop) `{∀ x, Decision (P x)}
    (l : list (nat * B)) :
  NoDup l.*1 → NoDup (filter P l).*1.
Proof.
  induction l as [| [i t] l IH]; intros Hnd; [constructor |].
  rewrite filter_cons. cbn in Hnd. apply NoDup_cons in Hnd as [Hnotin Hnd].
  destruct (decide (P (i, t))); [| auto].
  cbn. apply NoDup_cons. split; [| auto].
  intros Hin. apply Hnotin.
  apply list_elem_of_fmap in Hin as [[j u] [Heq Hin]].
  apply list_elem_of_filter in Hin as [_ Hin].
  apply list_elem_of_fmap. exists (j, u). auto.
Qed.

Lemma timers_sound_clear (st : state) (id : nat) :
  timers_sound st →
  timers_sound (set_timers (filter (fun p => p.1 ≠ id) (timers st)) st).
Proof.
  intros (Hnd & Hlt & Hping & Hkind & Hbound). open_state st.
  unfold timers_sound in *. unfold_setters. fields. split_and!.
  - apply NoDup_fst_filter. exact Hnd.
  - intros j t Hin. apply list_elem_of_filter in Hin as [_ Hin]. eauto.
  - intros j t Hin. apply list_elem_of_filter in Hin as [_ Hin]. eauto.
  - intros j t Hj Hin. apply list_elem_of_filter in Hin as [_ Hin]. eauto.
  - exact Hbound.
Qed.

Lemma timers_sound_add (st : state) (t : timer) :
  timers_sound st →
  is_ping t = false →
  timers_sound
    (set_next_timer (S (next_timer st))
       (set_timers (timers st ++ [(next_timer st, t)]) st)).
Proof.
  intros (Hnd & Hlt & Hping & Hkind & Hbound) Ht. open_state st.
  unfold timers_sound in *. unfold_setters. fields. split_and!.
  - rewrite fmap_app. apply NoDup_app. split_and!.
    + exact Hnd.
    + intros j Hin Hnew. cbn in Hnew. apply list_elem_of_singleton in Hnew.
      apply list_elem_of_fmap in Hin as [[k u] [Heq Hin]]. cbn in Heq.
      subst. specialize (Hlt _ _ Hin). lia.
    + cbn. apply NoDup_singleton.
  - intros j u Hin. apply elem_of_app in Hin as [Hin | Hin].
    + specialize (Hlt _ _ Hin). lia.
    + apply list_elem_of_singleton in Hin. injection Hin as -> ->. lia.
  - intros j u Hin Hu. apply elem_of_app in Hin as [Hin | Hin]; [eauto |].
    apply list_elem_of_singleton in Hin. injection Hin as -> ->. congruence.
  - intros j u Hj Hin. apply elem_of_app in Hin as [Hin | Hin]; [eauto |].
    apply list_elem_of_singleton in Hin. injection Hin as -> ->.
    specialize (Hbound _ Hj). lia.
  - intros j Hj. specialize (Hbound _ Hj). lia.
Qed.

(** After [stopPing] no keepalive timer is left. *)
Lemma timers_sound_stopPing (st : state) :
  timers_sound st →
  timers_sound (stopPing st).2
  ∧ pingInterval (stopPing st).2 = None
  ∧ next_timer (stopPing st).2 = next_timer st.
Proof.
  intros Hst. rewrite stopPing_eq.
  destruct (pingInterval st) as [id |] eqn:Hid; cbn [snd].
  - pose proof (timers_sound_clear st id Hst) as Hclear.
    destruct Hst as (_ & _ & Hping & _ & _).
    destruct Hclear as (Hnd & Hlt & _ & _ & _).
    open_state st. unfold timers_sound in *. unfold_setters. fields.
    subst f_ping. split_and!; try assumption; try reflexivity;
      try discriminate.
    intros j t Hin Ht. apply list_elem_of_filter in Hin as [Hne Hin].
    specialize (Hping _ _ Hin Ht). cbn in Hne. congruence.
  - split_and!; [exact Hst | exact Hid | reflexivity].
Qed.

Lemma startPing_eq (st : state) (interval : value) :
  startPing interval st =
  (inr tt,
   let st1 := (stopPing st).2 in
   set_pingInterval (Some (next_timer st1))
     (set_next_timer (S (next_timer st1))
        (set_timers (timers st1 ++ [(next_timer st1, PingTimer interval)])
           st1))).
Proof.
  unfold startPing. rewrite stopPing_eq. open_state st.
  destruct f_ping; run_monad; reflexivity.
Qed.

Lemma timers_sound_startPing (st : state) (interval : value) :
  timers_sound st → timers_sound (startPing interval st).2.
Proof.
  intros Hst. rewrite startPing_eq. cbn [snd].
  destruct (timers_sound_stopPing st Hst)
    as ((Hnd & Hlt & Hping & Hkind & Hbound) & Hnone & _).
  destruct (stopPing st).2 as [c r u b l a pg at' bu ai ac hp tms nt sn cl
                               cc ev lg ck].
  unfold timers_sound in *. unfold_setters. fields. subst pg. split_and!.
  - rewrite fmap_app. apply NoDup_app. split_and!.
    + exact Hnd.
    + intros j Hin Hnew. cbn in Hnew. apply list_elem_of_singleton in Hnew.
      apply list_elem_of_fmap in Hin as [[k t] [Heq Hin]]. cbn in Heq.
      subst. specialize (Hlt _ _ Hin). lia.
    + cbn. apply NoDup_singleton.
  - intros j t Hin. apply elem_of_app in Hin as [Hin | Hin].
    + specialize (Hlt _ _ Hin). lia.
    + apply list_elem_of_singleton in Hin. injection Hin as -> ->. lia.
  - intros j t Hin Ht. apply elem_of_app in Hin as [Hin | Hin].
    + specialize (Hping _ _ Hin Ht). discriminate.
    + apply list_elem_of_singleton in Hin. injection Hin as -> ->.
      reflexivity.
  - intros j t Hj Hin. injection Hj as <-.
    apply elem_of_app in Hin as [Hin | Hin].
    + specialize (Hlt _ _ Hin). lia.
    + apply list_elem_of_singleton in Hin. injection Hin as ->.
      reflexivity.
  - intros j Hj. injection Hj as <-. lia.
Qed.

Lemma maintains_of_total (I : state → Prop) {A} (m : M A) :
  (∀ st, I st → I (m st).2) → maintains I m (fun _ => True).
Proof. intros H st Hst. split; [apply H; exact Hst | trivial]. Qed.

Lemma set_timer_eq (st : state) (t : timer) :
  set_timer t st =
  (inr (next_timer st),
   set_next_timer (S (next_timer st))
     (set_timers (timers st ++ [(next_timer st, t)]) st)).
Proof. open_state st. unfold set_timer. run_monad. reflexivity. Qed.

Ltac timers_special :=
  idtac;
  lazymatch goal with
  | |- maintains timers_sound stopPing _ =>
      apply maintains_of_total; intros ? ?;
      apply timers_sound_stopPing; assumption
  | |- maintains timers_sound (startPing _) _ =>
      apply maintains_of_total; intros ? ?;
      apply timers_sound_startPing; assumption
  | |- maintains timers_sound (clear_timer _) _ =>
      apply maintains_of_total; intros ? ?;
      apply timers_sound_clear; assumption
  | |- maintains timers_sound (mbind ?f (set_timer ?t)) ?R =>
      apply (maintains_bind timers_sound (set_timer t) f (fun _ => True) R);
      [apply maintains_of_total; intros ? ?; rewrite set_timer_eq;
       apply timers_sound_add; [assumption | reflexivity]
      | intros ? _]
  end.

Ltac timers_leaf :=
  idtac;
  let s := fresh "s" in
  let Hs := fresh "Hs" in
  intros s Hs; open_state s;
  unfold timers_sound in *; unfold_setters; fields; exact Hs.

Lemma dispatch_keeps_timers (i : input) :
  maintains timers_sound (dispatch i) (fun _ => True).
Proof.
  destruct i; cbn [dispatch]; maintains_auto timers_special timers_leaf.
Qed.

Lemma NoDup_all_equal {A} (a : A) (l : list A) :
  NoDup l → (∀ x, x ∈ l → x = a) → (length l ≤ 1)%nat.
Proof.
  intros Hnd Hall. destruct l as [| x [| y l]]; cbn; try lia.
  exfalso. apply NoDup_cons in Hnd as [Hnotin _]. apply Hnotin.
  rewrite (Hall x), (Hall y) by (repeat constructor).
  constructor.
Qed.

Lemma final_keeps_timers (turns : list (Z * input)) (st : state) :
  timers_sound st → timers_sound (final turns st).
Proof.
  intros Hst.
  apply invariant_final; [| apply dispatch_keeps_timers | exact Hst].
  intros now s Hs. open_state s. exact Hs.
Qed.

(** X4.  The keepalive timer does not leak.  In every run, restarts by
    further connect-info frames included, at most one keepalive timer
    is live, it is the one [pingInterval] holds, and none is live
    while [pingInterval] is null. *)
Theorem at_most_one_keepalive_timer (turns : list (Z * input)) (st : state) :
  timers_sound st →
  let st' := final turns st in
  timers_sound st'
  ∧ (length (ping_timers st') ≤ 1)%nat
  ∧ (pingInterval st' = None → ping_timers st' = [])
  ∧ (∀ id t, (id, t) ∈ ping_timers st' → pingInterval st' = Some id).
Proof.
  intros Hst st'.
  assert (Hfinal : timers_sound st')
    by exact (final_keeps_timers turns st Hst).
  destruct Hfinal as (Hnd & Hlt & Hping & Hkind & Hbound).
  assert (Hids : ∀ id t, (id, t) ∈ ping_timers st' → pingInterval st' = Some id).
  { intros id t Hin. apply list_elem_of_filter in Hin as [Ht Hin]. eauto. }
  split_and!.
  - repeat split; assumption.
  - destruct (pingInterval st') as [id |] eqn:Hid.
    + rewrite <- (length_fmap fst).
      apply (NoDup_all_equal id).
      * apply NoDup_fst_filter. exact Hnd.
      * intros j Hj. apply list_elem_of_fmap in Hj as [[k t] [-> Hin]].
        specialize (Hids _ _ Hin). cbn. congruence.
    + destruct (ping_timers st') as [| [j t] l]; [cbn; lia |].
      specialize (Hids j t (list_elem_of_here _ _)). discriminate.
  - intros Hnone. destruct (ping_timers st') as [| [j t] l]; [reflexivity |].
    specialize (Hids j t (list_elem_of_here _ _)). congruence.
  - exact Hids.
Qed.

Lemma new_client_timers_sound (room : string) (name : option string)
    (limit : option Z) :
  timers_sound (new_client room name limit).
Proof.
  unfold timers_sound. cbn. split_and!.
  - constructor.
  - intros id t Hin. inversion Hin.
  - intros id t Hin. inversion Hin.
  - discriminate.
  - discriminate.
Qed.

Lemma at_most_one_keepalive_timer_witness :
  let turns := opening 1 ++ [(30, Frame (JSON.dq "0{'pingInterval':500}"))] in
  (length (ping_timers (final turns (new_client "room" None None))) ≤ 1)%nat.
Proof.
  intros turns.
  exact (proj1 (proj2 (at_most_one_keepalive_timer turns _
                         (new_client_timers_sound "room" None None)))).
Defined.

(** ** The sweep timers *)

Lemma NoDup_fst_unique {B} (l : list (nat * B)) (i : nat) (a b : B) :
  NoDup l.*1 → (i, a) ∈ l → (i, b) ∈ l → a = b.
Proof.
  induction l as [| [j c] l IH]; intros Hnd Ha Hb; [inversion Ha |].
  cbn in Hnd. apply NoDup_cons in Hnd as [Hnotin Hnd].
  apply elem_of_cons in Ha as [Ha | Ha]; apply elem_of_cons in Hb as [Hb | Hb].
  - congruence.
  - injection Ha as -> ->. exfalso. apply Hnotin.
    apply list_elem_of_fmap. exists (j, b). auto.
  - injection Hb as -> ->. exfalso. apply Hnotin.
    apply list_elem_of_fmap. exists (j, a). auto.
  - exact (IH Hnd Ha Hb).
Qed.

(** Clearing a handle that no sweep timer has leaves the sweep timers
    as they are. *)
Lemma cleanup_filter_clear (l : list (nat * timer)) (id : nat) :
  (∀ t, (id, t) ∈ l → is_cleanup t = false) →
  filter (fun p => is_cleanup p.2 = true) (filter (fun p => p.1 ≠ id) l)
  = filter (fun p => is_cleanup p.2 = true) l.
Proof.
  induction l as [| [j t] l IH]; intros Hid; [reflexivity |].
  assert (Hrest : ∀ t', (id, t') ∈ l → is_cleanup t' = false)
    by (intros t' Hin; apply Hid; apply list_elem_of_further; exact Hin).
  rewrite (filter_cons (fun p => p.1 ≠ id)).
  destruct (decide ((j, t).1 ≠ id)) as [Hne | Heq].
  - rewrite !filter_cons. rewrite (IH Hrest). reflexivity.
  - rewrite (IH Hrest). rewrite filter_cons.
    destruct (decide (is_cleanup (j, t).2 = true)) as [Hc | Hc];
      [| reflexivity].
    cbn in Heq, Hc. assert (j = id) as -> by (destruct (decide (j = id)); tauto).
    rewrite (Hid t (list_elem_of_here _ _)) in Hc. discriminate.
Qed.

Lemma sweeps_live_stopPing (c : nat) (st : state) :
  sweeps_live c st → sweeps_live c (stopPing st).2.
Proof.
  intros [Hst Hc]. split; [apply timers_sound_stopPing; exact Hst |].
  rewrite stopPing_eq. destruct Hst as (_ & _ & _ & Hkind & _).
  unfold cleanup_timers in *. open_state st. fields.
  destruct f_ping as [id |]; unfold_setters; fields; [| exact Hc].
  rewrite cleanup_filter_clear; [exact Hc |].
  intros t Hin. specialize (Hkind id t eq_refl Hin).
  destruct t; [reflexivity | discriminate ..].
Qed.

Lemma sweeps_live_add (c : nat) (st : state) (t : timer) :
  is_cleanup t = false →
  length (cleanup_timers st) = c →
  length (cleanup_timers
            (set_next_timer (S (next_timer st))
               (set_timers (timers st ++ [(next_timer st, t)]) st))) = c.
Proof.
  intros Ht Hc. unfold cleanup_timers in *. open_state st.
  unfold_setters. fields. rewrite filter_app, length_app, Hc.
  rewrite filter_cons. cbn [snd]. rewrite Ht.
  destruct (decide (false = true)); [discriminate |]. cbn. lia.
Qed.

Lemma sweeps_live_startPing (c : nat) (st : state) (interval : value) :
  sweeps_live c st → sweeps_live c (startPing interval st).2.
Proof.
  intros Hst. split; [apply timers_sound_startPing; exact (proj1 Hst) |].
  rewrite startPing_eq. cbn [snd].
  destruct (sweeps_live_stopPing c st Hst) as [_ Hc].
  unfold cleanup_timers in *.
  destruct (stopPing st).2 as [c0 r u b l a pg at' bu ai ac hp tms nt sn cl
                               cc ev lg ck].
  unfold_setters. fields. fields.
  rewrite filter_app, length_app, Hc, filter_cons. cbn [snd is_cleanup].
  destruct (decide (false = true)); [discriminate |]. cbn. lia.
Qed.

Lemma onTimer_eq (st : state) (id : nat) :
  onTimer id st =
  match list_find (fun p => p.1 = id) (timers st) with
  | Some (_, (_, PingTimer _)) => send "2" st
  | Some (_, (_, CleanupTimer _)) => cleanupStaleAcks st
  | Some (_, (_, ReconnectTimer _)) =>
      (inr tt,
       set_connect_calls (S (connect_calls st))
         (set_timers (filter (fun p => p.1 ≠ id) (timers st)) st))
  | None => (inr tt, st)
  end.
Proof.
  open_state st. unfold onTimer. step_monad.
  destruct (list_find _ f_timers) as [[k [j [v | p | d]]] |]; reflexivity.
Qed.

Lemma send_eq (st : state) (data : string) :
  send data st =
  (inr tt,
   match connection st with
   | Some c =>
       if isConnected st then set_sent (sent st ++ [(c, data)]) st
       else set_console (console st ++ ["Cannot send data: not connected"]) st
   | None => set_console (console st ++ ["Cannot send data: not connected"]) st
   end).
Proof.
  open_state st. unfold send. step_monad.
  destruct f_conn, f_active; reflexivity.
Qed.

Lemma sweeps_live_onTimer (c : nat) (st : state) (id : nat) :
  sweeps_live c st → sweeps_live c (onTimer id st).2.
Proof.
  intros [Hst Hc].
  split; [apply (dispatch_keeps_timers (TimerFires id)); exact Hst |].
  rewrite onTimer_eq.
  destruct (list_find _ (timers st)) as [[k [j [v | p | d]]] |] eqn:Hfind.
  - rewrite send_eq. unfold cleanup_timers in *. open_state st.
    destruct f_conn, f_active; exact Hc.
  - rewrite cleanupStaleAcks_eq. unfold cleanup_timers in *. open_state st.
    exact Hc.
  - apply list_find_Some in Hfind as (Hat & Hj & _). cbn in Hj. subst j.
    destruct Hst as (Hnd & _). unfold cleanup_timers in *. open_state st.
    unfold_setters. fields. rewrite cleanup_filter_clear; [exact Hc |].
    intros t Hin.
    rewrite (NoDup_fst_unique _ id t (ReconnectTimer d) Hnd Hin);
      [reflexivity |].
    eapply list_elem_of_lookup_2. exact Hat.
  - exact Hc.
Qed.

Ltac sweeps_special :=
  idtac;
  lazymatch goal with
  | |- maintains (sweeps_live _) stopPing _ =>
      apply maintains_of_total; intros ? ?;
      apply sweeps_live_stopPing; assumption
  | |- maintains (sweeps_live _) (startPing _) _ =>
      apply maintains_of_total; intros ? ?;
      apply sweeps_live_startPing; assumption
  | |- maintains (sweeps_live _) (onTimer _) _ =>
      apply maintains_of_total; intros ? ?;
      apply sweeps_live_onTimer; assumption
  | |- maintains (sweeps_live ?c) (mbind ?f (set_timer ?t)) ?R =>
      apply (maintains_bind (sweeps_live c) (set_timer t) f
               (fun _ => True) R);
      [apply maintains_of_total; intros ? [? ?]; rewrite set_timer_eq;
       split;
       [apply timers_sound_add; [assumption | reflexivity]
       | apply sweeps_live_add; [reflexivity | assumption]]
      | intros ? _]
  end.

Ltac sweeps_leaf :=
  idtac;
  let s := fresh "s" in
  let Hs := fresh "Hs" in
  intros s Hs; open_state s;
  unfold sweeps_live, timers_sound, cleanup_timers in *;
  unfold_setters; fields; exact Hs.

Lemma dispatch_keeps_sweeps (c : nat) (i : input) :
  (∀ socket, i ≠ TransportOpen socket) →
  maintains (sweeps_live c) (dispatch i) (fun _ => True).
Proof.
  intros Hi. destruct i; cbn [dispatch];
    try (exfalso; eapply Hi; reflexivity);
    maintains_auto sweeps_special sweeps_leaf.
Qed.

(** X5.  The sweep timer leaks.  Every opening of the transport registers
    one more sweep timer, and no other turn of the event loop changes
    their number: not [disconnect()], not the close of the connection,
    not a 41 frame.  After n openings n sweeps run every 10 s. *)
Theorem sweep_timers_accumulate (now : Z) (i : input) (st : state) :
  timers_sound st →
  let st' := (step now i st).2 in
  timers_sound st'
  ∧ length (cleanup_timers st')
    = (length (cleanup_timers st)
       + match i with TransportOpen _ => 1 | _ => 0 end)%nat.
Proof.
  intros Hst st'. subst st'.
  assert (Hinv : sweeps_live (length (cleanup_timers st)) (set_clock now st)).
  { open_state st. split; [exact Hst | reflexivity]. }
  assert (Hsound : timers_sound (set_clock now st))
    by (open_state st; exact Hst).
  split; [exact (proj1 (dispatch_keeps_timers i _ Hsound)) |].
  destruct i as [| | text | limit | socket | error | error | | data | id];
    try (rewrite Nat.add_0_r;
         refine (proj2 (proj1 (dispatch_keeps_sweeps _ _ _ _ Hinv)));
         intros socket'; discriminate).
  unfold cleanup_timers. open_state st. unfold step, dispatch, onConnect.
  run_monad. rewrite filter_app, length_app, filter_cons.
  cbn [snd is_cleanup].
  destruct (decide (true = true)); [| congruence]. cbn. lia.
Qed.

Lemma sweep_timers_accumulate_witness :
  let c := new_client "room" None None in
  let st := final (opening 1 ++ [(5000, CallDisconnect); (5001, TransportClose)])
                  c in
  length (cleanup_timers (step 7001 (TransportOpen 2) st).2) = 2%nat.
Proof.
  intros c st.
  assert (Hsound : timers_sound st).
  { exact (final_keeps_timers _ _
             (new_client_timers_sound "room" None None)). }
  exact (proj2 (sweep_timers_accumulate 7001 (TransportOpen 2) st Hsound)).
Defined.

(** * The correlator *)

(** X7.  Ten allocations hand out ten distinct ids, counting up from the
    counter modulo 10, and bring the counter back: the eleventh
    request reuses the id of the first. *)
Theorem correlation_ids_cycle (st : state) :
  0 ≤ ackId st ≤ 9 →
  (allocate 10 st).1 = (fun k => (ackId st + k) mod 10) <$> seqZ 0 10
  ∧ NoDup (allocate 10 st).1
  ∧ ackId (allocate 10 st).2 = ackId st
  ∧ (getNextAckId (allocate 10 st).2).1 = inr (ackId st).
Proof.
  intros Hid.
  assert (Hcases : ackId st = 0 ∨ ackId st = 1 ∨ ackId st = 2 ∨ ackId st = 3
                   ∨ ackId st = 4 ∨ ackId st = 5 ∨ ackId st = 6
                   ∨ ackId st = 7 ∨ ackId st = 8 ∨ ackId st = 9) by lia.
  clear Hid. open_state st. fields.
  repeat (destruct Hcases as [-> | Hcases]); try subst f_aid;
    (split_and!; [reflexivity | | reflexivity | reflexivity]);
    apply (bool_decide_unpack _); vm_compute; exact I.
Qed.

Lemma correlation_ids_cycle_witness :
  (allocate 10 (final (joining 1) (new_client "room" None None))).1
  = [2; 3; 4; 5; 6; 7; 8; 9; 0; 1].
Proof.
  assert (Hid : 0 ≤ ackId (final (joining 1) (new_client "room" None None)) ≤ 9)
    by (vm_compute; split; discriminate).
  exact (proj1 (correlation_ids_cycle _ Hid)).
Defined.

(** X8.  [sendMessage] on an active client: the request takes the id of
    the counter, is recorded as pending at the time of the call
    (replacing whatever was pending under that id), moves the counter
    on, and is written to the open connection as one frame.  No event
    is emitted. *)
Theorem sendMessage_when_active (st : state) (text : string) (socket : nat) :
  isActive st = true →
  connection st = Some socket →
  let st' := (sendMessage text st).2 in
  (sendMessage text st).1 = inr tt
  ∧ pendingAcks st'
    = <[ackId st := mkPending "sendMessage" (clock st)]> (pendingAcks st)
  ∧ ackId st' = (ackId st + 1) mod 10
  ∧ sent st' = sent st ++ [(socket, sendMessage_frame st text)]
  ∧ emitted st' = emitted st
  ∧ console st' = console st.
Proof.
  intros Hactive Hconn st'. subst st'.
  unfold isActive, sendMessage_frame in *.
  open_state st. fields. subst f_active f_conn.
  unfold sendMessage, getNextAckId, pendingAcks_set, send. step_monad.
  split_and!; reflexivity.
Qed.

Lemma sendMessage_when_active_witness :
  let st := final (joining 1) (new_client "room" None None) in
  pendingAcks (sendMessage "gm" st).2 !! 2 = Some (mkPending "sendMessage" 40)
  ∧ sent (sendMessage "gm" st).2
    = sent st ++ [(1%nat, sendMessage_frame st "gm")].
Proof.
  intros st.
  assert (Hactive : isActive st = true) by reflexivity.
  assert (Hconn : connection st = Some 1%nat) by reflexivity.
  pose proof (sendMessage_when_active st "gm" 1 Hactive Hconn)
    as (_ & Hpending & _ & Hsent & _).
  split; [| exact Hsent].
  rewrite Hpending. reflexivity.
Defined.

(** X9.  Sweeps compose: a sweep at time T followed by one at a later time
    T' leaves the table that the sweep at T' alone leaves; sweeping
    twice at the same time is sweeping once. *)
Theorem sweeps_compose (st : state) (T T' : Z) :
  T ≤ T' →
  swept T' (cleanupStaleAcks (set_clock T st)).2 = swept T' st.
Proof.
  intros Hle. unfold swept. rewrite !cleanupStaleAcks_eq.
  open_state st. unfold_setters. fields.
  apply map_eq. intros id. apply option_eq. intros p.
  rewrite !sweep_lookup. unfold ack_timeout. split.
  - intros [[Hm Hold] Hnew]. split; [exact Hm |].
    intros q Hq. apply elem_of_map_to_list in Hq.
    assert (q = p) as -> by congruence.
    apply Hnew. apply elem_of_map_to_list, sweep_lookup.
    split; [exact Hm | exact Hold].
  - intros [Hm Hnew].
    assert (Hfresh : (30000 <? T' - timestamp p) = false)
      by (apply Hnew, elem_of_map_to_list; exact Hm).
    split; [split; [exact Hm |] |].
    + intros q Hq. apply elem_of_map_to_list in Hq.
      assert (q = p) as -> by congruence.
      apply Z.ltb_ge. apply Z.ltb_ge in Hfresh. lia.
    + intros q Hq. apply elem_of_map_to_list, sweep_lookup in Hq as [Hq _].
      assert (q = p) as -> by congruence. exact Hfresh.
Qed.

Lemma sweeps_compose_witness :
  let st := final (joining 1) (new_client "room" None None) in
  swept 40000 (cleanupStaleAcks (set_clock 30040 st)).2 = swept 40000 st.
Proof.
  intros st.
  assert (Hle : 30040 ≤ 40000) by lia.
  exact (sweeps_compose st 30040 40000 Hle).
Defined.

(** * The frame handlers *)

Lemma prefixed_frame (rest : string) :
  JS.leading_digits rest = "" →
  (JS.leading_digits ("0" +:+ rest) = "0"
   ∧ JS.substring_from 1 ("0" +:+ rest) = rest)
  ∧ (JS.leading_digits ("41" +:+ rest) = "41"
     ∧ JS.substring_from 2 ("41" +:+ rest) = rest)
  ∧ (JS.leading_digits ("42" +:+ rest) = "42"
     ∧ JS.substring_from 2 ("42" +:+ rest) = rest).
Proof.
  intros Hrest. cbv [String.append].
  rewrite !leading_digits_cons by reflexivity. rewrite Hrest.
  split_and!; reflexivity.
Qed.

Lemma requestMessageHistory_eq (st : state) :
  requestMessageHistory st = (inr tt, history_requested st).
Proof.
  unfold history_requested, getMessageHistory_frame. rewrite send_eq.
  open_state st.
  unfold requestMessageHistory, getNextAckId, pendingAcks_set, send.
  step_monad. destruct f_conn, f_active; reflexivity.
Qed.

Lemma handleNumberedAck_join (st : state) (data : string) (id : Z)
    (p : pending) (ackData : value) :
  String.eqb (JS.leading_digits data) "" = false →
  JS.parseInt_digits (JS.substring_from 2 (JS.leading_digits data)) = Some id →
  pendingAcks st !! id = Some p →
  event p = "joinRoom" →
  JSON.parse (JS.substring_from 3 data) = Some ackData →
  handleNumberedAck data st =
  requestMessageHistory (set_pendingAcks (delete id (pendingAcks st)) st).
Proof.
  intros Hmt Hid Hpending Hevent Hparse.
  rewrite requestMessageHistory_eq.
  unfold handleNumberedAck. rewrite Hmt, Hid.
  destruct p as [ev ts]. cbn [event] in Hevent. subst ev.
  open_state st. fields. step_monad. rewrite Hpending, Hparse.
  cbv [event]. cbn [String.eqb Ascii.eqb Bool.eqb].
  rewrite requestMessageHistory_eq. reflexivity.
Qed.

(** X16.  Both confirmations of the join ask for the history.  A correlated
    acknowledgment that resolves to the join request (whatever JSON it
    carries) and a [setCookie] event (whatever its arguments) each
    allocate the next id, record the history request as pending under
    it at the time of the frame and write the request frame; the
    acknowledgment also clears the join entry.  When both arrive, the
    history is asked for twice. *)
Theorem join_confirmation_requests_history (st : state) (id : Z)
    (p : pending) (rest cookie : string) (ackData : value)
    (args : list value) :
  0 ≤ id ≤ 9 →
  pendingAcks st !! id = Some p →
  event p = "joinRoom" →
  JS.leading_digits rest = "" →
  JSON.parse rest = Some ackData →
  JS.leading_digits cookie = "" →
  JSON.parse cookie = Some (VArr (VStr "setCookie" :: args)) →
  handleMessage ("43" +:+ JS.Z_to_string id +:+ rest) st
  = (inr tt,
     history_requested (set_pendingAcks (delete id (pendingAcks st)) st))
  ∧ handleMessage ("42" +:+ cookie) st = (inr tt, history_requested st)
  ∧ (∀ s, pendingAcks (history_requested s)
          = <[ackId s := mkPending "getMessageHistory" (clock s)]>
              (pendingAcks s)
          ∧ ackId (history_requested s) = (ackId s + 1) mod 10
          ∧ emitted (history_requested s) = emitted s
          ∧ (∀ socket, connection s = Some socket → isConnected s = true →
               sent (history_requested s)
               = sent s ++ [(socket, getMessageHistory_frame s)])).
Proof.
  intros Hid Hpending Hevent Hrest Hparse Hcookie Hset.
  destruct (correlated_frame id rest Hid Hrest) as (Hmt & Hne & Hpid & Hsub).
  destruct (prefixed_frame cookie Hcookie) as (_ & _ & Hcmt & Hcsub).
  split_and!.
  - rewrite (handleMessage_numbered _ Hmt). rewrite <- Hsub in Hparse.
    rewrite (handleNumberedAck_join st _ id p ackData Hne Hpid Hpending
               Hevent Hparse).
    apply requestMessageHistory_eq.
  - rewrite (proj1 (proj2 (proj2 (handleMessage_dispatch _))) Hcmt).
    unfold handleEvent. rewrite Hcsub. step_monad. rewrite Hset.
    destruct args as [| payload more]; cbn [JS.destructure2];
      cbn [String.eqb Ascii.eqb Bool.eqb];
      rewrite requestMessageHistory_eq; reflexivity.
  - intros s. unfold history_requested. rewrite send_eq.
    open_state s. unfold_setters. fields. split_and!.
    + destruct f_conn, f_active; reflexivity.
    + destruct f_conn, f_active; reflexivity.
    + destruct f_conn, f_active; reflexivity.
    + intros socket -> ->. reflexivity.
Qed.

Lemma join_confirmation_requests_history_witness :
  let st := final (opening 1 ++ [(30, Frame "40")])
                  (new_client "room" None None) in
  pendingAcks (handleMessage (JSON.dq "430[{'error':null}]") st).2 !! 1
  = Some (mkPending "getMessageHistory" 30)
  ∧ pendingAcks (handleMessage (JSON.dq "430[{'error':null}]") st).2 !! 0
    = None.
Proof.
  intros st.
  assert (Hid : 0 ≤ 0 ≤ 9) by lia.
  assert (Hpending : pendingAcks st !! 0 = Some (mkPending "joinRoom" 30))
    by (vm_compute; reflexivity).
  assert (Hevent : event (mkPending "joinRoom" 30) = "joinRoom")
    by reflexivity.
  assert (Hrest : JS.leading_digits (JSON.dq "[{'error':null}]") = "")
    by reflexivity.
  assert (Hparse : JSON.parse (JSON.dq "[{'error':null}]")
                   = Some (VArr [VObj [("error", VNull)]]))
    by (vm_compute; reflexivity).
  assert (Hcookie : JS.leading_digits (JSON.dq "['setCookie']") = "")
    by reflexivity.
  assert (Hset : JSON.parse (JSON.dq "['setCookie']")
                 = Some (VArr (VStr "setCookie" :: [])))
    by (vm_compute; reflexivity).
  pose proof (join_confirmation_requests_history st 0 _ _ _ _ _
                Hid Hpending Hevent Hrest Hparse Hcookie Hset)
    as (Hjoin & _ & _).
  change (JSON.dq "430[{'error':null}]")
    with ("43" +:+ JS.Z_to_string 0 +:+ JSON.dq "[{'error':null}]").
  rewrite Hjoin. split; vm_compute; reflexivity.
Defined.

Lemma handleNumberedAck_send (st : state) (data : string) (id : Z)
    (p : pending) (ackData first : value) :
  String.eqb (JS.leading_digits data) "" = false →
  JS.parseInt_digits (JS.substring_from 2 (JS.leading_digits data)) = Some id →
  pendingAcks st !! id = Some p →
  event p = "sendMessage" →
  JSON.parse (JS.substring_from 3 data) = Some ackData →
  JS.get_first ackData = inr first →
  handleNumberedAck data st =
  let st1 := set_pendingAcks (delete id (pendingAcks st)) st in
  (inr tt,
   if JS.truthy first && JS.truthy (member "error" first)
   then set_emitted (emitted st1 ++ [ServerError first])
          (set_console (console st1 ++ ["Server error:"]) st1)
   else st1).
Proof.
  intros Hmt Hid Hpending Hevent Hparse Hfirst.
  unfold handleNumberedAck. rewrite Hmt, Hid.
  destruct p as [ev ts]. cbn [event] in Hevent. subst ev.
  open_state st. fields. step_monad. rewrite Hpending, Hparse.
  cbv [event]. cbn [String.eqb Ascii.eqb Bool.eqb]. rewrite Hfirst.
  destruct first as [| | b | m e | s | xs | kvs];
    cbn [JS.truthy JS.get_field member andb];
    try destruct b; try destruct (JS.num_is_zero m e) eqn:Hzero;
    try destruct (String.eqb s "") eqn:Hempty;
    try destruct (JS.truthy (JS.obj_get "error" kvs)) eqn:Herror;
    cbn [negb andb]; step_monad;
    cbn [JS.truthy negb andb]; rewrite ?Herror, ?Hzero, ?Hempty;
    cbn [JS.truthy negb andb]; reflexivity.
Qed.

(** X17.  A failed send is reported, not retried.  A correlated
    acknowledgment that resolves to a [sendMessage] request clears the
    entry; it emits the server-error event, with element 0 of the
    payload, exactly when that element is truthy and has a truthy
    [error] member.  Nothing is written to the transport and the
    history buffer is left alone. *)
Theorem send_failure_is_reported (st : state) (id : Z) (p : pending)
    (rest : string) (ackData first : value) :
  0 ≤ id ≤ 9 →
  pendingAcks st !! id = Some p →
  event p = "sendMessage" →
  JS.leading_digits rest = "" →
  JSON.parse rest = Some ackData →
  JS.get_first ackData = inr first →
  let st' := (handleMessage ("43" +:+ JS.Z_to_string id +:+ rest) st).2 in
  pendingAcks st' = delete id (pendingAcks st)
  ∧ emitted st'
    = emitted st ++ (if JS.truthy first && JS.truthy (member "error" first)
                     then [ServerError first] else [])
  ∧ sent st' = sent st
  ∧ ackId st' = ackId st
  ∧ messageHistory st' = messageHistory st
  ∧ heap st' = heap st.
Proof.
  intros Hid Hpending Hevent Hrest Hparse Hfirst st'. subst st'.
  destruct (correlated_frame id rest Hid Hrest) as (Hmt & Hne & Hpid & Hsub).
  rewrite (handleMessage_numbered _ Hmt). rewrite <- Hsub in Hparse.
  rewrite (handleNumberedAck_send st _ id p ackData first Hne Hpid Hpending
             Hevent Hparse Hfirst).
  open_state st. unfold_setters. fields.
  destruct (JS.truthy first && JS.truthy (member "error" first));
    cbn [snd]; fields; rewrite ?app_nil_r; split_and!; reflexivity.
Qed.

Lemma send_failure_is_reported_witness :
  let st := (sendMessage "gm"
               (final (joining 1) (new_client "room" None None))).2 in
  let first := VObj [("error", VStr "Authentication required")] in
  emitted (handleMessage
             ("43" +:+ JS.Z_to_string 2
              +:+ JSON.dq "[{'error':'Authentication required'}]") st).2
  = emitted st ++ [ServerError first].
Proof.
  intros st first.
  assert (Hid : 0 ≤ 2 ≤ 9) by lia.
  assert (Hpending : pendingAcks st !! 2 = Some (mkPending "sendMessage" 40))
    by (vm_compute; reflexivity).
  assert (Hevent : event (mkPending "sendMessage" 40) = "sendMessage")
    by reflexivity.
  assert (Hrest : JS.leading_digits
                    (JSON.dq "[{'error':'Authentication required'}]") = "")
    by reflexivity.
  assert (Hparse : JSON.parse (JSON.dq "[{'error':'Authentication required'}]")
                   = Some (VArr [first]))
    by (vm_compute; reflexivity).
  assert (Hfirst : JS.get_first (VArr [first]) = inr first) by reflexivity.
  exact (proj1 (proj2 (send_failure_is_reported st 2 _ _ _ first
                         Hid Hpending Hevent Hrest Hparse Hfirst))).
Defined.

(** X14.  A frame whose leading digits are not a recognized prefix, such as
    [5], [44], [4300] or a text that starts with no digit, is dropped:
    nothing is logged, emitted, sent or changed.  So is a pong. *)
Theorem unknown_prefix_is_dropped (st : state) (data : string) :
  JS.leading_digits data ∉ recognized_prefixes
  ∨ JS.leading_digits data = "3" →
  handleMessage data st = (inr tt, st).
Proof.
  intros [Hunknown | Hpong].
  - unfold handleMessage.
    assert (Hne : ∀ s, s ∈ recognized_prefixes →
                       String.eqb (JS.leading_digits data) s = false).
    { intros s Hs. apply String.eqb_neq. intros Heq. apply Hunknown.
      rewrite Heq. exact Hs. }
    unfold recognized_prefixes in Hne. unfold numbered_acks in *.
    cbn [existsb]. rewrite !Hne by set_solver. reflexivity.
  - unfold handleMessage. rewrite Hpong. reflexivity.
Qed.

Lemma unknown_prefix_is_dropped_witness :
  let st := new_client "room" None None in
  handleMessage (JSON.dq "4300[{'error':null}]") st = (inr tt, st).
Proof.
  intros st. apply unknown_prefix_is_dropped. left.
  change (JS.leading_digits (JSON.dq "4300[{'error':null}]")) with "4300".
  unfold recognized_prefixes, numbered_acks. cbn [app].
  intros Hin. repeat (apply elem_of_cons in Hin as [Hin | Hin];
                      [discriminate |]).
  inversion Hin.
Defined.

(** ** Event frames *)

Lemma handleEvent_named (st : state) (rest name : string)
    (args : list value) :
  JS.leading_digits rest = "" →
  JSON.parse rest = Some (VArr (VStr name :: args)) →
  handleMessage ("42" +:+ rest) st =
  if String.eqb name "setCookie" then (inr tt, history_requested st)
  else if String.eqb name "newMessage"
       then try_catch (handleNewMessage (hd VUndef args))
              (fun _ => console_error "Error parsing event:") st
  else if String.eqb name "userLeft"
       then (inr tt,
             set_emitted (emitted st ++ [UserLeft (hd VUndef args)]) st)
  else (inr tt, st).
Proof.
  intros Hrest Hparse.
  destruct (prefixed_frame rest Hrest) as (_ & _ & Hmt & Hsub).
  rewrite (proj1 (proj2 (proj2 (handleMessage_dispatch _))) Hmt).
  unfold handleEvent. rewrite Hsub.
  destruct (String.eqb name "setCookie") eqn:Hcookie;
    [| destruct (String.eqb name "newMessage") eqn:Hnew;
       [| destruct (String.eqb name "userLeft") eqn:Hleft]];
    unfold try_catch, mbind, M_bind, JSON_parse;
    rewrite Hparse; destruct args as [| y args];
    cbn [lift JS.destructure2 mret M_ret hd];
    rewrite ?Hcookie, ?Hnew, ?Hleft;
    rewrite ?requestMessageHistory_eq; reflexivity.
Qed.

(** X15.  An event frame whose payload is JSON: a [userLeft] event is passed
    on with its argument and changes nothing else; an array with any
    other first element than the three known names, the empty array
    and a string are ignored without a trace; a payload that cannot be
    destructured (an object, a number, a boolean, null) is logged. *)
Theorem event_frame_routing (st : state) (rest : string) (parsed : value) :
  JS.leading_digits rest = "" →
  JSON.parse rest = Some parsed →
  handleMessage ("42" +:+ rest) st =
  match parsed with
  | VArr (VStr name :: args) =>
      if String.eqb name "setCookie" then (inr tt, history_requested st)
      else if String.eqb name "newMessage"
           then try_catch (handleNewMessage (hd VUndef args))
                  (fun _ => console_error "Error parsing event:") st
      else if String.eqb name "userLeft"
           then (inr tt,
                 set_emitted (emitted st ++ [UserLeft (hd VUndef args)]) st)
      else (inr tt, st)
  | VArr _ | VStr _ => (inr tt, st)
  | _ => logged "Error parsing event:" st
  end.
Proof.
  intros Hrest Hparse.
  destruct parsed as [| | b | m e | s | [| [| | b | m e | name | ys | kvs] args]
                      | kvs];
    try exact (handleEvent_named st rest _ _ Hrest Hparse);
    destruct (prefixed_frame rest Hrest) as (_ & _ & Hmt & Hsub);
    rewrite (proj1 (proj2 (proj2 (handleMessage_dispatch _))) Hmt);
    unfold handleEvent; rewrite Hsub;
    try (open_state st; step_monad; rewrite Hparse;
         try destruct args; reflexivity).
  open_state st. step_monad. rewrite Hparse.
  destruct s as [| a [| b s]]; cbn [JS.destructure2 String.eqb];
    repeat match goal with
           | |- context [Ascii.eqb ?x ?y] => destruct (Ascii.eqb x y)
           end; reflexivity.
Qed.

Lemma event_frame_routing_witness :
  let st := final (opening 1) (new_client "room" None None) in
  handleMessage ("42" +:+ JSON.dq "['userLeft',{'id':'u1'}]") st
  = (inr tt,
     set_emitted (emitted st ++ [UserLeft (VObj [("id", VStr "u1")])]) st).
Proof.
  intros st.
  assert (Hrest : JS.leading_digits (JSON.dq "['userLeft',{'id':'u1'}]") = "")
    by reflexivity.
  assert (Hparse : JSON.parse (JSON.dq "['userLeft',{'id':'u1'}]")
                   = Some (VArr [VStr "userLeft"; VObj [("id", VStr "u1")]]))
    by (vm_compute; reflexivity).
  exact (event_frame_routing st _ _ Hrest Hparse).
Defined.

(** ** A buffer that is no array *)

(** X18.  The last branch of the generic acknowledgment.  When the payload
    is a non-empty array whose element 0 is neither an array nor a
    value with a truthy [messages] member (an error object, a number,
    null), that element becomes the history buffer all the same and is
    announced as the history. *)
Theorem generic_ack_takes_any_first_element (st : state) (rest : string)
    (first : value) (more : list value) :
  JS.leading_digits rest = "" →
  JSON.parse rest = Some (VArr (first :: more)) →
  JS.isArray first = false →
  JS.truthy (member "messages" first) = false →
  history_replaced st (handleMessage ("43" +:+ rest) st).2 first
  ∧ buffer (handleMessage ("43" +:+ rest) st).2 = None.
Proof.
  intros Hrest Hparse Harray Hmessages.
  destruct (generic_frame rest Hrest) as (Hmt & Hsub).
  rewrite (proj2 (proj2 (proj2 (handleMessage_dispatch _))) Hmt).
  assert (Hcall : handleEventWithAck ("43" +:+ rest) st
                  = replace_history first st).
  { unfold handleEventWithAck. rewrite Hsub. step_monad. rewrite Hparse.
    cbn [JS.get_first].
    destruct first as [| | b | m e | s | xs | kvs];
      try discriminate; cbn [JS.truthy JS.get_field JS.isArray member] in *;
      try destruct b; try destruct (JS.num_is_zero m e) eqn:Hzero;
      try destruct (String.eqb s "") eqn:Hempty;
      cbn [negb]; step_monad; cbn [JS.truthy JS.isArray negb];
      rewrite ?Hmessages, ?Hzero, ?Hempty; cbn [JS.truthy JS.isArray negb];
      rewrite replace_history_eq; reflexivity. }
  rewrite Hcall, replace_history_eq. unfold history_replaced, buffer, array_at.
  open_state st. unfold_setters. fields. split; [split_and!; reflexivity |].
  rewrite lookup_app_r by lia. rewrite Nat.sub_diag. cbn.
  destruct first; try reflexivity. discriminate.
Qed.

Lemma generic_ack_takes_any_first_element_witness :
  let st := final (joining 1) (new_client "room" None None) in
  buffer st = Some []
  ∧ buffer (handleMessage ("43" +:+ JSON.dq "[{'error':'denied'}]") st).2
    = None.
Proof.
  intros st. split; [reflexivity |].
  assert (Hrest : JS.leading_digits (JSON.dq "[{'error':'denied'}]") = "")
    by reflexivity.
  assert (Hparse : JSON.parse (JSON.dq "[{'error':'denied'}]")
                   = Some (VArr (VObj [("error", VStr "denied")] :: [])))
    by (vm_compute; reflexivity).
  exact (proj2 (generic_ack_takes_any_first_element st _ _ _ Hrest Hparse
                  eq_refl eq_refl)).
Defined.

(** X19.  Once the buffer is no array, new messages are lost: a
    [newMessage] event frame is answered with one line on the error
    console, no message event is emitted and the buffer stays as it
    is; and [getMessages] throws unless the buffer is a string. *)
Theorem non_array_buffer_loses_messages (st : state) (v : value)
    (rest : string) (args : list value) :
  heap st !! messageHistory st = Some v →
  JS.isArray v = false →
  JS.leading_digits rest = "" →
  JSON.parse rest = Some (VArr (VStr "newMessage" :: args)) →
  handleMessage ("42" +:+ rest) st = logged "Error parsing event:" st
  ∧ (JS.is_string v = false →
     ∀ limit, getMessages limit st = (inl TypeError, st)).
Proof.
  intros Hcell Harray Hrest Hparse. split.
  - rewrite (handleEvent_named st rest _ _ Hrest Hparse).
    change (String.eqb "newMessage" "setCookie") with false.
    change (String.eqb "newMessage" "newMessage") with true. cbv iota.
    open_state st. fields.
    unfold handleNewMessage. step_monad. rewrite Hcell.
    destruct v; try reflexivity. discriminate.
  - intros Hstring limit. open_state st. fields.
    unfold getMessages, slice_last, spread. step_monad. rewrite Hcell.
    destruct v; try discriminate;
      destruct limit as [n |]; try destruct (n =? 0); reflexivity.
Qed.

Lemma non_array_buffer_loses_messages_witness :
  let st := (handleMessage ("43" +:+ JSON.dq "[{'error':'denied'}]")
               (final (joining 1) (new_client "room" None None))).2 in
  handleMessage ("42" +:+ JSON.dq "['newMessage',{'id':'m1'}]") st
  = logged "Error parsing event:" st.
Proof.
  intros st.
  assert (Hcell : heap st !! messageHistory st
                  = Some (VObj [("error", VStr "denied")]))
    by (vm_compute; reflexivity).
  assert (Hrest : JS.leading_digits (JSON.dq "['newMessage',{'id':'m1'}]") = "")
    by reflexivity.
  assert (Hparse : JSON.parse (JSON.dq "['newMessage',{'id':'m1'}]")
                   = Some (VArr (VStr "newMessage"
                                   :: [VObj [("id", VStr "m1")]])))
    by (vm_compute; reflexivity).
  exact (proj1 (non_array_buffer_loses_messages st _ _ _ Hcell eq_refl
                  Hrest Hparse)).
Defined.

(** ** Server-initiated disconnect *)

Lemma handleDisconnect_eq (st : state) (data : string) :
  handleDisconnect data st =
  attemptReconnect
    (disconnected_with
       (disconnect_reason
          (if String.eqb (JS.substring_from 2 data) "" then None
           else JSON.parse (JS.substring_from 2 data)))
       st).
Proof.
  unfold disconnected_with. rewrite stopPing_eq. open_state st.
  unfold handleDisconnect. step_monad.
  destruct (String.eqb (JS.substring_from 2 data) "") eqn:Hempty.
  - cbn [disconnect_reason]. rewrite stopPing_eq. unfold_setters. fields.
    destruct f_ping; reflexivity.
  - destruct (JSON.parse (JS.substring_from 2 data)) as [parsed |].
    + destruct parsed as [| | b | m e | s | xs | kvs];
        cbn [disconnect_reason member JS.truthy JS.is_string JS.get_field
             andb];
        try destruct b; try destruct (JS.num_is_zero m e);
        try destruct (String.eqb s ""); cbn [negb andb]; step_monad;
        rewrite stopPing_eq; unfold_setters; fields;
        destruct f_ping; reflexivity.
    + cbn [disconnect_reason]. rewrite stopPing_eq. unfold_setters. fields.
      destruct f_ping; reflexivity.
Qed.

(** X21.  A 41 frame always disconnects: the client clears its flag and its
    connection, stops the keepalive timer, emits the disconnected
    event and runs the reconnect policy.  The reason it reports is the
    payload when that is a non-empty JSON string, the payload's truthy
    [reason] member when it has one, and the default text otherwise
    (no payload, JSON of another shape, or no JSON at all). *)
Theorem server_disconnect (st : state) (rest : string) :
  JS.leading_digits rest = "" →
  let reason := disconnect_reason (JSON.parse rest) in
  let st' := (handleMessage ("41" +:+ rest) st).2 in
  handleMessage ("41" +:+ rest) st
  = attemptReconnect (disconnected_with reason st)
  ∧ isActive st' = false
  ∧ connection st' = None
  ∧ pingInterval st' = None
  ∧ emitted st'
    = emitted st ++
      [Disconnected (Some reason);
       if reconnectAttempts st <? maxReconnectAttempts st
       then TryReconnect else MaxReconnectAttemptsReached].
Proof.
  intros Hrest reason st'. subst reason st'.
  destruct (prefixed_frame rest Hrest) as (_ & (Hmt & Hsub) & _).
  rewrite (proj1 (proj2 (handleMessage_dispatch _)) Hmt).
  rewrite handleDisconnect_eq, Hsub.
  assert (Hempty : (if String.eqb rest "" then None else JSON.parse rest)
                   = JSON.parse rest).
  { destruct (String.eqb_spec rest ""); [subst; reflexivity | reflexivity]. }
  rewrite Hempty. split; [reflexivity |].
  rewrite attemptReconnect_eq. unfold disconnected_with.
  rewrite stopPing_eq. unfold isActive. open_state st.
  do 3 (cbn [fst snd]; step_monad).
  destruct f_ping; do 2 (cbn [fst snd]; step_monad);
    destruct (f_attempts <? f_budget); do 2 (cbn [fst snd]; step_monad);
    rewrite <- ?app_assoc; split_and!; reflexivity.
Qed.

Lemma server_disconnect_witness :
  let st := final (opening 1) (new_client "room" None None) in
  emitted (handleMessage ("41" +:+ JSON.dq "{'reason':'kicked'}") st).2
  = emitted st ++ [Disconnected (Some (VStr "kicked")); TryReconnect].
Proof.
  intros st.
  assert (Hrest : JS.leading_digits (JSON.dq "{'reason':'kicked'}") = "")
    by reflexivity.
  exact (proj2 (proj2 (proj2 (proj2 (server_disconnect st _ Hrest))))).
Defined.

(** ** The connect-info frame *)

(** X11.  A connect-info frame whose payload is JSON: [null] makes the
    handler throw a TypeError that nothing catches; any other value
    starts the keepalive timer exactly when it has a truthy
    [pingInterval] member (so not for [{}] and not for an interval 0),
    replacing a keepalive timer that runs, and the handshake frame
    with the time of the frame is sent in either case. *)
Theorem connect_info_frame (st : state) (rest : string) (connectData : value) :
  JS.leading_digits rest = "" →
  JSON.parse rest = Some connectData →
  handleMessage ("0" +:+ rest) st =
  if is_nullish connectData then (inl TypeError, st)
  else
    send (handshake_frame (clock st))
      (if JS.truthy (member "pingInterval" connectData)
       then (startPing (member "pingInterval" connectData) st).2
       else st).
Proof.
  intros Hrest Hparse.
  destruct (prefixed_frame rest Hrest) as ((Hmt & Hsub) & _).
  rewrite (proj1 (handleMessage_dispatch _) Hmt).
  unfold handleConnect, handshake_frame. rewrite Hsub.
  rewrite !startPing_eq, !stopPing_eq. unfold send. open_state st.
  step_monad. rewrite Hparse.
  destruct connectData as [| | b | m e | s | xs | kvs];
    cbn [is_nullish JS.get_field member JS.truthy]; try reflexivity;
    try destruct (JS.truthy (JS.obj_get "pingInterval" kvs));
    do 2 (cbn [fst snd]; step_monad);
    unfold startPing; rewrite ?stopPing_eq;
    do 2 (cbn [fst snd]; step_monad);
    destruct f_ping, f_conn, f_active; reflexivity.
Qed.

Lemma connect_info_frame_witness :
  let st := final [(0, CallConnect); (10, TransportOpen 1)]
                  (new_client "room" None None) in
  handleMessage ("0" +:+ JSON.dq "{'pingInterval':0}") st
  = send (handshake_frame (clock st)) st
  ∧ handleMessage ("0" +:+ "null") st = (inl TypeError, st).
Proof.
  intros st. generalize st. clear st. intros st.
  assert (Hrest : JS.leading_digits (JSON.dq "{'pingInterval':0}") = "")
    by (vm_compute; reflexivity).
  assert (Hparse : JSON.parse (JSON.dq "{'pingInterval':0}")
                   = Some (VObj [("pingInterval", VNum 0 0)]))
    by (vm_compute; reflexivity).
  assert (Hrest' : JS.leading_digits "null" = "") by reflexivity.
  assert (Hparse' : JSON.parse "null" = Some VNull)
    by (vm_compute; reflexivity).
  split.
  - exact (connect_info_frame st _ _ Hrest Hparse).
  - exact (connect_info_frame st _ _ Hrest' Hparse').
Defined.

(** * The queue between the client and the scheduler *)

Lemma extract_loop_spec (messages : list value) :
  ∀ extracted,
    forallb (fun m => negb (is_nullish m)) messages = true →
    extract_loop messages extracted
    = inr (extracted ++
           ((fun m => mkPumpMessage (member "username" m) (member "message" m))
              <$> messages)).
Proof.
  induction messages as [| m rest IH]; intros extracted Hall.
  - cbn. rewrite app_nil_r. reflexivity.
  - cbn [forallb] in Hall. apply andb_prop in Hall as [Hm Hrest].
    cbn [extract_loop fmap list_fmap].
    destruct m; try discriminate; cbn [JS.get_field member];
      rewrite (IH _ Hrest), <- app_assoc; reflexivity.
Qed.

Lemma extract_loop_poisoned (messages : list value) :
  ∀ extracted,
    existsb is_nullish messages = true →
    extract_loop messages extracted = inl TypeError.
Proof.
  induction messages as [| m rest IH]; intros extracted Hsome;
    [discriminate |].
  cbn [existsb] in Hsome. cbn [extract_loop].
  destruct m; cbn [JS.get_field is_nullish orb] in *; try reflexivity;
    apply IH; exact Hsome.
Qed.

Lemma enqueue_all_app (ms : list value) :
  ∀ q, enqueue_all ms q = q ++ ms.
Proof.
  induction ms as [| m ms IH]; intros q.
  - cbn. rewrite app_nil_r. reflexivity.
  - unfold enqueue_all in *. cbn [foldl]. rewrite IH.
    unfold on_message.
    destruct (JS.get_field m "username") as [e | name]; cbn [snd];
      [rewrite <- app_assoc; reflexivity |].
    destruct (toString_throws name); cbn [snd];
      [rewrite <- app_assoc; reflexivity |].
    destruct (JS.get_field m "message") as [e | body]; cbn [snd];
      [rewrite <- app_assoc; reflexivity |].
    destruct (toString_throws body); cbn [snd];
      rewrite <- app_assoc; reflexivity.
Qed.

(** X22.  [extractMessages] drains the queue: when no queued message is
    null or undefined, it returns one entry per message, in arrival
    order, with the message's [username] as sender and its [message]
    as text (undefined where the message has no such member), and
    leaves the queue empty, so that the next call returns nothing. *)
Theorem extractMessages_drains (messages : list value) :
  forallb (fun m => negb (is_nullish m)) messages = true →
  extractMessages messages
  = (inr ((fun m => mkPumpMessage (member "username" m) (member "message" m))
            <$> messages),
     [])
  ∧ extractMessages (extractMessages messages).2 = (inr [], []).
Proof.
  intros Hall. unfold extractMessages.
  rewrite (extract_loop_spec messages [] Hall). cbn [app snd].
  split; reflexivity.
Qed.

Lemma extractMessages_drains_witness :
  let m := VObj [("username", VStr "alice"); ("message", VStr "gm")] in
  extractMessages [m; VStr "noise"]
  = (inr [mkPumpMessage (VStr "alice") (VStr "gm");
          mkPumpMessage VUndef VUndef],
     []).
Proof.
  intros m.
  exact (proj1 (extractMessages_drains [m; VStr "noise"] eq_refl)).
Defined.

(** X23.  One null or undefined message in the queue poisons it:
    [extractMessages] throws a TypeError and keeps the queue as it is,
    so that every later call throws as well, whatever the listener
    enqueues in between. *)
Theorem null_message_poisons_queue (messages later : list value) :
  existsb is_nullish messages = true →
  extractMessages messages = (inl TypeError, messages)
  ∧ extractMessages (enqueue_all later (extractMessages messages).2)
    = (inl TypeError, messages ++ later).
Proof.
  intros Hsome.
  assert (Hthrows : extractMessages messages = (inl TypeError, messages)).
  { unfold extractMessages.
    rewrite (extract_loop_poisoned messages [] Hsome). reflexivity. }
  split; [exact Hthrows |].
  rewrite Hthrows. cbn [snd]. rewrite enqueue_all_app. unfold extractMessages.
  rewrite (extract_loop_poisoned (messages ++ later) []); [reflexivity |].
  rewrite existsb_app, Hsome. reflexivity.
Qed.

(** A [newMessage] event without an argument is enough: the client
    emits the message event with undefined, the listener enqueues it,
    and the queue is poisoned. *)
Lemma null_message_poisons_queue_witness :
  let st := final (opening 1 ++ [(30, Frame (JSON.dq "42['newMessage']"))])
                  (new_client "room" None None) in
  let queue := enqueue_all (emitted_messages (emitted st)) [] in
  queue = [VUndef]
  ∧ extractMessages queue = (inl TypeError, queue).
Proof.
  intros st queue.
  assert (Hqueue : queue = [VUndef]) by (vm_compute; reflexivity).
  split; [exact Hqueue |].
  rewrite Hqueue.
  exact (proj1 (null_message_poisons_queue [VUndef] [] eq_refl)).
Defined.

(** X24.  The listener of the message event appends the message to the
    queue whatever the message is, and throws a TypeError on a null or
    undefined message after having appended it. *)
Theorem listener_enqueues_before_it_reads (m : value) (q : list value) :
  (on_message m q).2 = q ++ [m]
  ∧ (is_nullish m = true → (on_message m q).1 = inl TypeError)
  ∧ (∀ ms, enqueue_all ms q = q ++ ms).
Proof.
  split_and!.
  - exact (enqueue_all_app [m] q).
  - intros Hm. unfold on_message. destruct m; try discriminate; reflexivity.
  - intros ms. apply enqueue_all_app.
Qed.

(** ** The connection of an active client *)

Ltac link_leaf :=
  idtac;
  let s := fresh "s" in
  let Hs := fresh "Hs" in
  intros s Hs; open_state s;
  unfold connection_present in *; unfold_setters; fields;
  exact Hs.

Lemma onConnect_keeps_connection (socket : nat) :
  maintains connection_present (onConnect socket) (fun _ => True).
Proof.
  intros s _. split; [| trivial]. open_state s. unfold onConnect.
  run_monad. intros _. eexists. reflexivity.
Qed.

Lemma attemptReconnect_keeps_isConnected (st : state) :
  isConnected (attemptReconnect st).2 = isConnected st.
Proof.
  rewrite attemptReconnect_eq. open_state st. cbn [snd].
  destruct (reconnectAttempts _ <? maxReconnectAttempts _); reflexivity.
Qed.

Lemma onClose_keeps_connection :
  maintains connection_present onClose (fun _ => True).
Proof.
  intros s _. split; [| trivial].
  assert (Hoff : isConnected (onClose s).2 = false).
  { open_state s. unfold onClose. run_monad.
    rewrite stopPing_eq. cbv beta iota zeta.
    match goal with
    | |- context [attemptReconnect ?x] =>
        change (isConnected (attemptReconnect x).2 = false)
    end.
    rewrite attemptReconnect_keeps_isConnected.
    destruct f_ping; reflexivity. }
  intros Hon. rewrite Hoff in Hon. discriminate Hon.
Qed.

Lemma handleDisconnect_keeps_connection (data : string) :
  maintains connection_present (handleDisconnect data) (fun _ => True).
Proof.
  intros s _. split; [| trivial].
  assert (Hoff : isConnected (handleDisconnect data s).2 = false).
  { rewrite handleDisconnect_eq, attemptReconnect_keeps_isConnected.
    unfold disconnected_with. rewrite stopPing_eq. open_state s.
    destruct f_ping; reflexivity. }
  intros Hon. rewrite Hoff in Hon. discriminate Hon.
Qed.

Ltac link_special :=
  idtac;
  lazymatch goal with
  | |- maintains _ (handleDisconnect _) _ =>
      apply handleDisconnect_keeps_connection
  | |- maintains _ (onConnect _) _ => apply onConnect_keeps_connection
  | |- maintains _ onClose _ => apply onClose_keeps_connection
  end.

Lemma dispatch_keeps_connection (i : input) :
  maintains connection_present (dispatch i) (fun _ => True).
Proof.
  destruct i; cbn [dispatch]; maintains_auto link_special link_leaf.
Qed.

Lemma final_keeps_connection (turns : list (Z * input)) (st : state) :
  connection_present st → connection_present (final turns st).
Proof.
  intros Hst.
  apply invariant_final; [| apply dispatch_keeps_connection | exact Hst].
  intros now s Hs. open_state s. exact Hs.
Qed.

(** X6.  An active client has its connection.  In every run, while
    [isActive()] is true the connection is set, so that [send] writes
    its frame to the transport and never takes the branch that only
    prints that the client is not connected. *)
Theorem active_client_has_connection (turns : list (Z * input)) (st : state) :
  connection_present st →
  let st' := final turns st in
  connection_present st'
  ∧ (isActive st' = true →
     ∃ socket, connection st' = Some socket
               ∧ ∀ data, send data st'
                         = (inr tt, set_sent (sent st' ++ [(socket, data)]) st')).
Proof.
  intros Hst st'.
  assert (Hfinal : connection_present st')
    by exact (final_keeps_connection turns st Hst).
  split; [exact Hfinal |].
  unfold isActive. intros Hactive.
  destruct (Hfinal Hactive) as [socket Hsocket].
  exists socket. split; [exact Hsocket |].
  intros data. rewrite send_eq, Hsocket, Hactive. reflexivity.
Qed.

Lemma active_client_has_connection_witness :
  is_Some (connection (final (opening 1) (new_client "room" None None))).
Proof.
  assert (Hnew : connection_present (new_client "room" None None)).
  { intros Hon. discriminate Hon. }
  assert (Hactive : isConnected (final (opening 1)
                                   (new_client "room" None None)) = true)
    by reflexivity.
  exact (proj1 (active_client_has_connection (opening 1) _ Hnew) Hactive).
Defined.

(** ** The handshake acknowledgment and the server's ping *)

Lemma handleMessage_handshake (data : string) :
  (JS.leading_digits data = "40" → handleMessage data = handleConnectedAck)
  ∧ (JS.leading_digits data = "2" → handleMessage data = sendPong).
Proof.
  unfold handleMessage. split; intros ->; reflexivity.
Qed.

(** X10.  Every frame with the prefix 40 makes the client join, whatever
    follows the prefix: the join request takes the id of the counter,
    is recorded as pending at the time of the frame (replacing
    whatever was pending under that id), moves the counter on and is
    written to the open connection with the room and the user name.
    No event is emitted; a second 40 frame joins a second time. *)
Theorem handshake_ack_joins_room (st : state) (data : string) :
  JS.leading_digits data = "40" →
  let st' := (handleMessage data st).2 in
  (handleMessage data st).1 = inr tt
  ∧ pendingAcks st'
    = <[ackId st := mkPending "joinRoom" (clock st)]> (pendingAcks st)
  ∧ ackId st' = (ackId st + 1) mod 10
  ∧ emitted st' = emitted st
  ∧ (∀ socket, connection st = Some socket → isConnected st = true →
       sent st' = sent st ++ [(socket, joinRoom_frame st)]).
Proof.
  intros Hmt st'. subst st'.
  rewrite (proj1 (handleMessage_handshake data) Hmt).
  unfold joinRoom_frame. open_state st. fields.
  unfold handleConnectedAck, getNextAckId, pendingAcks_set, send. step_monad.
  destruct f_conn as [c |]; [destruct f_active |];
    split_and!; try reflexivity; intros socket Hsocket Hactive;
    try discriminate.
  injection Hsocket as ->. reflexivity.
Qed.

Lemma handshake_ack_joins_room_witness :
  let st := final (opening 1) (new_client "room" None None) in
  sent (handleMessage "40" st).2
  = sent st ++ [(1%nat, JSON.dq "420['joinRoom',{'roomId':'room','username':'anonymous'}]")].
Proof.
  intros st.
  assert (Hmt : JS.leading_digits "40" = "40") by reflexivity.
  assert (Hconn : connection st = Some 1%nat) by reflexivity.
  assert (Hactive : isConnected st = true) by reflexivity.
  pose proof (handshake_ack_joins_room st "40" Hmt) as (_ & _ & _ & _ & Hsent).
  rewrite (Hsent 1%nat Hconn Hactive). reflexivity.
Defined.

(** X13.  The server's ping is answered.  In every run, a frame with the
    prefix 2 that reaches an active client writes the pong frame to
    the current connection and changes nothing else; a client that is
    not active only prints that it cannot send. *)
Theorem server_ping_is_answered (turns : list (Z * input)) (st : state)
    (data : string) :
  connection_present st →
  JS.leading_digits data = "2" →
  let st' := final turns st in
  (isActive st' = true →
   ∃ socket, connection st' = Some socket
             ∧ handleMessage data st'
               = (inr tt, set_sent (sent st' ++ [(socket, "3")]) st'))
  ∧ (isActive st' = false →
     handleMessage data st'
     = (inr tt,
        set_console (console st' ++ ["Cannot send data: not connected"]) st')).
Proof.
  intros Hst Hmt st'.
  pose proof (final_keeps_connection turns st Hst) as Hfinal.
  fold st' in Hfinal.
  rewrite (proj2 (handleMessage_handshake data) Hmt).
  unfold sendPong, isActive. split; intros Hactive.
  - destruct (Hfinal Hactive) as [socket Hsocket].
    exists socket. split; [exact Hsocket |].
    rewrite send_eq, Hsocket, Hactive. reflexivity.
  - rewrite send_eq, Hactive. destruct (connection st'); reflexivity.
Qed.

Lemma server_ping_is_answered_witness :
  let st := final (opening 1) (new_client "room" None None) in
  sent (handleMessage "2" st).2 = sent st ++ [(1%nat, "3")].
Proof.
  intros st.
  assert (Hnew : connection_present (new_client "room" None None)).
  { intros Hon. discriminate Hon. }
  assert (Hmt : JS.leading_digits "2" = "2") by reflexivity.
  assert (Hactive : isActive st = true) by reflexivity.
  destruct (proj1 (server_ping_is_answered (opening 1) _ "2" Hnew Hmt) Hactive)
    as (socket & Hsocket & Hrun).
  fold st in Hsocket, Hrun.
  assert (Hone : connection st = Some 1%nat) by reflexivity.
  rewrite Hone in Hsocket. injection Hsocket as <-.
  rewrite Hrun. reflexivity.
Defined.

(** ** X12 and X20: witnesses of [connect_info_malformed_raises] and
    of [new_messages_keep_last_N] *)

Lemma connect_info_malformed_raises_witness :
  let st := new_client "room" None None in
  handleMessage "0{" st = (inl SyntaxError, st).
Proof.
  intros st.
  assert (Hmt : JS.leading_digits "0{" = "0") by reflexivity.
  assert (Hbad : JSON.parse (payload "0{") = None) by reflexivity.
  exact (connect_info_malformed_raises st "0{" Hmt Hbad).
Defined.

Lemma new_messages_keep_last_N_witness :
  buffer (receive [VStr "a"; VStr "b"; VStr "c"]
                  (new_client "room" None (Some 2)))
  = Some [VStr "b"; VStr "c"].
Proof.
  assert (Hcap : 1 ≤ 2) by lia.
  assert (Hmore : 2 < Z.of_nat (length [VStr "a"; VStr "b"; VStr "c"]))
    by (cbn; lia).
  exact (proj1 (new_messages_keep_last_N "room" 2 _ Hcap Hmore)).
Defined.

(** ** C8: the sweep and the timer that runs it *)

Lemma cleanup_period_clear (st : state) (id : nat) :
  cleanup_period st →
  cleanup_period (set_timers (filter (fun p => p.1 ≠ id) (timers st)) st).
Proof.
  intros Hst j p Hin. open_state st. unfold cleanup_period in Hst.
  unfold_setters. fields.
  apply list_elem_of_filter in Hin as [_ Hin]. exact (Hst j p Hin).
Qed.

Lemma cleanup_period_add (st : state) (t : timer) :
  cleanup_period st →
  (∀ p, t = CleanupTimer p → p = 10000) →
  cleanup_period
    (set_next_timer (S (next_timer st))
       (set_timers (timers st ++ [(next_timer st, t)]) st)).
Proof.
  intros Hst Ht j p Hin. open_state st. unfold cleanup_period in Hst.
  unfold_setters. fields.
  apply elem_of_app in Hin as [Hin | Hin]; [exact (Hst j p Hin) |].
  apply list_elem_of_singleton in Hin. injection Hin as _ Heq.
  apply Ht. symmetry. exact Heq.
Qed.

Lemma cleanup_period_stopPing (st : state) :
  cleanup_period st → cleanup_period (stopPing st).2.
Proof.
  intros Hst. rewrite stopPing_eq. cbn [snd].
  destruct (pingInterval st) as [id |]; [| exact Hst].
  pose proof (cleanup_period_clear st id Hst) as Hclear.
  open_state st. unfold cleanup_period in *. unfold_setters. fields.
  exact Hclear.
Qed.

Lemma cleanup_period_startPing (st : state) (interval : value) :
  cleanup_period st → cleanup_period (startPing interval st).2.
Proof.
  intros Hst. rewrite startPing_eq. cbn [snd].
  pose proof (cleanup_period_stopPing st Hst) as Hstop.
  pose proof (cleanup_period_add (stopPing st).2 (PingTimer interval) Hstop)
    as Hadd.
  destruct (stopPing st).2 as [c r u b l a pg at' bu ai ac hp tms nt sn cl
                               cc ev lg ck].
  unfold cleanup_period in *. unfold_setters. fields.
  apply Hadd. intros p Heq. discriminate Heq.
Qed.

Ltac period_special :=
  idtac;
  lazymatch goal with
  | |- maintains cleanup_period stopPing _ =>
      apply maintains_of_total; intros ? ?;
      apply cleanup_period_stopPing; assumption
  | |- maintains cleanup_period (startPing _) _ =>
      apply maintains_of_total; intros ? ?;
      apply cleanup_period_startPing; assumption
  | |- maintains cleanup_period (clear_timer _) _ =>
      apply maintains_of_total; intros ? ?;
      apply cleanup_period_clear; assumption
  | |- maintains cleanup_period (mbind ?f (set_timer ?t)) ?R =>
      apply (maintains_bind cleanup_period (set_timer t) f (fun _ => True) R);
      [apply maintains_of_total; intros ? ?; rewrite set_timer_eq;
       apply cleanup_period_add;
       [assumption
       | let p := fresh "p" in
         let Heq := fresh "Heq" in
         intros p Heq;
         first [discriminate Heq | injection Heq as <-; reflexivity]]
      | intros ? _]
  end.

Ltac period_leaf :=
  idtac;
  let s := fresh "s" in
  let Hs := fresh "Hs" in
  intros s Hs; open_state s;
  unfold cleanup_period in *; unfold_setters; fields; exact Hs.

Lemma dispatch_keeps_period (i : input) :
  maintains cleanup_period (dispatch i) (fun _ => True).
Proof.
  destruct i; cbn [dispatch]; maintains_auto period_special period_leaf.
Qed.

Lemma final_keeps_period (turns : list (Z * input)) (st : state) :
  cleanup_period st → cleanup_period (final turns st).
Proof.
  intros Hst.
  apply invariant_final; [| apply dispatch_keeps_period | exact Hst].
  intros now s Hs. open_state s. exact Hs.
Qed.

(** The firing of a live sweep timer is the sweep at the time of the
    firing, whatever the pending table holds. *)
Lemma sweep_timer_fires (st : state) (T : Z) (id : nat) (period : Z) :
  NoDup (timers st).*1 →
  (id, CleanupTimer period) ∈ timers st →
  step T (TimerFires id) st = cleanupStaleAcks (set_clock T st).
Proof.
  intros Hnd Hin. unfold step. cbn [dispatch]. rewrite onTimer_eq.
  assert (Htimers : timers (set_clock T st) = timers st)
    by (open_state st; reflexivity).
  rewrite Htimers.
  destruct (list_find_elem_of (fun p => p.1 = id) (timers st)
              (id, CleanupTimer period) Hin eq_refl) as [[k [j t]] Hfind].
  rewrite Hfind.
  apply list_find_Some in Hfind as (Hat & Hj & _). cbn in Hj. subst j.
  apply list_elem_of_lookup_2 in Hat.
  rewrite (NoDup_fst_unique _ id t (CleanupTimer period) Hnd Hat Hin).
  reflexivity.
Qed.

(** C8 as amended.  A sweep run at time T keeps exactly the pending
    entries that were not created before T - 30000, each with its
    value: it removes the entries created before T - TTL, with
    TTL = 30000 in the unit of the clock, and touches no other entry.
    Every opening of the transport registers a repeating timer of
    period 10000; and in every run of a client, every live sweep timer
    has that period and its firing at time T is the sweep at time T,
    whatever the pending table holds, and leaves the timer running. *)
Theorem sweep_removes_exactly_stale (st : state) (T : Z) :
  let st' := (cleanupStaleAcks (set_clock T st)).2 in
  (cleanupStaleAcks (set_clock T st)).1 = inr tt
  ∧ (∀ id p, pendingAcks st' !! id = Some p
             ↔ pendingAcks st !! id = Some p ∧ ¬ timestamp p < T - 30000)
  ∧ (∀ socket, timers (step T (TransportOpen socket) st).2
               = timers st ++ [(next_timer st, CleanupTimer 10000)])
  ∧ (∀ r u n turns id period,
       let c := final turns (new_client r u n) in
       (id, CleanupTimer period) ∈ timers c →
       period = 10000
       ∧ step T (TimerFires id) c = cleanupStaleAcks (set_clock T c)
       ∧ timers (step T (TimerFires id) c).2 = timers c).
Proof.
  intros st'. subst st'. rewrite cleanupStaleAcks_eq.
  split_and!.
  - reflexivity.
  - intros id p. open_state st.
    cbn [snd pendingAcks set_pendingAcks set_clock clock].
    rewrite sweep_lookup. unfold ack_timeout.
    split.
    + intros [Hm Hall]. split; [exact Hm |].
      specialize (Hall p (proj2 (elem_of_map_to_list _ _ _) Hm)).
      apply Z.ltb_ge in Hall. lia.
    + intros [Hm Hfresh]. split; [exact Hm |].
      intros q Hq. apply elem_of_map_to_list in Hq.
      assert (q = p) as -> by congruence.
      apply Z.ltb_ge. lia.
  - intros socket. open_state st. unfold step, dispatch, onConnect.
    run_monad. reflexivity.
  - intros r u n turns id period c Hin.
    assert (Hsound : timers_sound c)
      by exact (final_keeps_timers turns _ (new_client_timers_sound r u n)).
    assert (Hperiod : cleanup_period c).
    { apply final_keeps_period. intros j p Hj. inversion Hj. }
    split_and!.
    + exact (Hperiod id period Hin).
    + exact (sweep_timer_fires c T id period (proj1 Hsound) Hin).
    + rewrite (sweep_timer_fires c T id period (proj1 Hsound) Hin).
      rewrite cleanupStaleAcks_eq. destruct c. reflexivity.
Qed.

(** C8 as stated fails in the unit of the clock, the unit of the
    reconnect delays.  After the handshake the history request is
    pending since time 40 and the sweep timer of period 10000 (not 10)
    is live.  The entry was created before T - 30 for T = 100, and the
    sweep that the timer runs at T = 100 keeps it; so does the one at
    T = 30040; the one at T = 30041 is the first to remove it. *)
Lemma sweep_keeps_entry_older_than_30 :
  let st := final (joining 1) (new_client "room" None None) in
  pendingAcks st !! 1 = Some (mkPending "getMessageHistory" 40)
  ∧ 40 < 100 - 30
  ∧ timers st !! 0%nat = Some (0%nat, CleanupTimer 10000)
  ∧ pendingAcks (step 100 (TimerFires 0) st).2 !! 1
    = Some (mkPending "getMessageHistory" 40)
  ∧ pendingAcks (step 30040 (TimerFires 0) st).2 !! 1
    = Some (mkPending "getMessageHistory" 40)
  ∧ pendingAcks (step 30041 (TimerFires 0) st).2 !! 1 = None.
Proof.
  intros st. split_and!; vm_compute; reflexivity.
Qed.
